(** * EmuSkele.py: device catalog parsing, profile selection, AVD
    provisioning and the system-dump prompts

    A shallow embedding of [src/EmuSkele.py].  Pure string code becomes
    functions on [str]; code that spawns children, prints or reads the
    console runs in a small state-and-exception monad over a [world]. *)

From stdpp Require Import base option list gmap strings.
From Stdlib Require Import ZArith Ascii DecimalString DecimalNat Lia.

Local Open Scope Z_scope.
Local Open Scope list_scope.

(** ** Python [str]

    A Python string is modelled as the list of its characters, each a code
    point below 256 (the Latin-1 range); the builtins below follow CPython
    on that range. *)

Abbreviation str := (list ascii) (only parsing).

Definition lit (s : string) : str := Stdlib.Strings.String.list_ascii_of_string s.

Definition code (c : ascii) : N := N_of_ascii c.

Definition chr (n : N) : ascii := ascii_of_N n.

(** The double-quote character, code point 34. *)
Definition dquote : ascii := chr 34.

Definition code_in (c : ascii) (ns : list N) : bool :=
  existsb (N.eqb (code c)) ns.

(** [str.isspace] on one character: TAB LF VT FF CR, FS GS RS US, SPACE,
    NEL and NBSP. *)
Definition isspace (c : ascii) : bool :=
  code_in c [9; 10; 11; 12; 13; 28; 29; 30; 31; 32; 133; 160]%N.

(** The line boundaries of [str.splitlines]: LF VT FF CR FS GS RS NEL. *)
Definition is_linebreak (c : ascii) : bool :=
  code_in c [10; 11; 12; 13; 28; 29; 30; 133]%N.

Definition LF : ascii := chr 10.
Definition CR : ascii := chr 13.

(** [str.lower] on one character: A-Z and the upper-case Latin-1 letters
    (0xC0-0xDE without the multiplication sign 0xD7) move up by 32. *)
Definition lower_char (c : ascii) : ascii :=
  let n := code c in
  if ((65 <=? n) && (n <=? 90))%N then chr (n + 32)
  else if ((192 <=? n) && (n <=? 222) && negb (n =? 215))%N then chr (n + 32)
  else c.

Definition lower (s : str) : str := map lower_char s.

Fixpoint dropwhile (p : ascii → bool) (s : str) : str :=
  match s with
  | [] => []
  | c :: r => if p c then dropwhile p r else s
  end.

Definition lstrip (s : str) : str := dropwhile isspace s.
Definition rstrip (s : str) : str := reverse (dropwhile isspace (reverse s)).
(** [s.strip()] *)
Definition strip (s : str) : str := rstrip (lstrip s).

(** [s.startswith(p)] *)
Fixpoint startswith (p s : str) : bool :=
  match p, s with
  | [], _ => true
  | _ :: _, [] => false
  | a :: p', b :: s' => bool_decide (a = b) && startswith p' s'
  end.

(** [needle in hay] on strings: some suffix of [hay] starts with [needle]. *)
Fixpoint contains (needle hay : str) : bool :=
  startswith needle hay ||
  match hay with
  | [] => false
  | _ :: t => contains needle t
  end.

(** [s.splitlines()]: split at every line boundary, CR LF counting as one;
    no empty last line is produced for a trailing boundary. *)
Fixpoint splitlines (s : str) : list str :=
  match s with
  | [] => []
  | c :: r =>
      if bool_decide (c = CR) then
        match r with
        | c' :: r' => if bool_decide (c' = LF) then [] :: splitlines r'
                      else [] :: splitlines r
        | [] => [] :: splitlines r
        end
      else if is_linebreak c then [] :: splitlines r
      else match splitlines r with
           | [] => [[c]]
           | l :: ls => (c :: l) :: ls
           end
  end.

(** [s.split(sep, 1)] for a one-character separator: the text before the
    first separator and the text after it, or [s] alone without one. *)
Fixpoint split_once (sep : ascii) (s : str) : list str :=
  match s with
  | [] => [[]]
  | c :: r =>
      if bool_decide (c = sep) then [[]; r]
      else match split_once sep r with
           | h :: t => (c :: h) :: t
           | [] => [[c]]
           end
  end.

(** [s.split()]: the maximal runs of non-whitespace characters. *)
Fixpoint split_ws_go (cur : str) (s : str) : list str :=
  match s with
  | [] => match cur with [] => [] | _ => [cur] end
  | c :: r =>
      if isspace c then
        match cur with
        | [] => split_ws_go [] r
        | _ => cur :: split_ws_go [] r
        end
      else split_ws_go (cur ++ [c]) r
  end.

Definition split_ws (s : str) : list str := split_ws_go [] s.

(** [sep.join(parts)] *)
Fixpoint join (sep : str) (parts : list str) : str :=
  match parts with
  | [] => []
  | [p] => p
  | p :: rest => p ++ sep ++ join sep rest
  end.

(** Truth value of a string and of an [Optional[str]]: empty and [None]
    are false. *)
Definition truthy_str (s : str) : bool :=
  match s with [] => false | _ => true end.

Definition truthy (o : option str) : bool :=
  match o with Some s => truthy_str s | None => false end.

(** [str(n)] for a natural number (the f-string formatting of an index). *)
Definition str_of_nat (n : nat) : str :=
  lit (NilZero.string_of_uint (Nat.to_uint n)).

(** *** [int(s)] in base ten

    Surrounding whitespace is dropped, one sign is allowed, and single
    underscores may separate digits.  [None] stands for [ValueError].  The
    interpreter's limit on the number of digits (4300 by default) is not
    modelled: the texts of interest are shorter. *)

Definition is_digit (c : ascii) : bool :=
  let n := code c in ((48 <=? n) && (n <=? 57))%N.

Definition digit_val (c : ascii) : Z := Z.of_N (code c) - 48.

Definition underscore : ascii := chr 95.

(** [after_digit] tells whether the previous character was a digit, the
    only place where an underscore or the end of the text may follow. *)
Fixpoint int_digits (acc : Z) (after_digit : bool) (s : str) : option Z :=
  match s with
  | [] => if after_digit then Some acc else None
  | c :: r =>
      if is_digit c then int_digits (10 * acc + digit_val c) true r
      else if bool_decide (c = underscore) && after_digit
           then int_digits acc false r
      else None
  end.

Definition py_int (s : str) : option Z :=
  match strip s with
  | [] => None
  | c :: r =>
      if bool_decide (c = chr 43) then int_digits 0 false r
      else if bool_decide (c = chr 45) then Z.opp <$> int_digits 0 false r
      else int_digits 0 false (c :: r)
  end.

(** [l[i]] with Python's negative indices; [None] stands for
    [IndexError]. *)
Definition py_index {A} (l : list A) (i : Z) : option A :=
  if 0 <=? i then l !! Z.to_nat i
  else if - Z.of_nat (length l) <=? i then l !! Z.to_nat (Z.of_nat (length l) + i)
  else None.

(** ** The device catalog

    [list_avd_devices] builds dictionaries [{"id": ..}] that may later
    receive a ["name"] key; every dictionary it appends has the ["id"]
    key, so a record carries [id] as a string and [name] as optional. *)

Record DeviceRecord : Type := mkDevice {
  id : str;
  name : option str;
}.

Definition set_name (v : str) (d : DeviceRecord) : DeviceRecord :=
  {| id := id d; name := Some v |}.

(** [d.get("name", default)] with the empty string as default *)
Definition get_name (d : DeviceRecord) : str := default [] (name d).

(** [line.split(":", 1)[1]]; [None] stands for [IndexError]. *)
Definition after_colon (line : str) : option str :=
  split_once ":"%char line !! 1%nat.

(** The loop of [list_avd_devices] over the lines of the tool's output.

    [devices] is the list being built.  [current] is a reference shared
    with that list: [Some i] when it is the dictionary at index [i] of
    [devices], [None] while it is still the initial [{}], which is in no
    list (a name written to it is never read); the test
    [current is not None] of the source holds in both cases.  An exception
    inside the loop is swallowed by [except Exception: pass], which leaves
    the devices collected so far. *)
Fixpoint parse_lines (out : list str) (devices : list DeviceRecord)
    (current : option nat) : list DeviceRecord :=
  match out with
  | [] => devices
  | l :: rest =>
      let line := strip l in
      if negb (truthy_str line) then parse_lines rest devices current
      else if startswith (lit "id:") line then
        match after_colon line with
        | Some v =>
            parse_lines rest (devices ++ [mkDevice (strip v) None])
              (Some (length devices))
        | None => devices
        end
      else if startswith (lit "name:") line then
        match after_colon line with
        | Some v =>
            match current with
            | Some i => parse_lines rest (alter (set_name (strip v)) i devices) current
            | None => parse_lines rest devices current
            end
        | None => devices
        end
      else parse_lines rest devices current
  end.

(** The catalog read from the text that [avdmanager list device] wrote. *)
Definition parse_catalog (stdout : str) : list DeviceRecord :=
  parse_lines (splitlines stdout) [] None.

(** ** Profile selection *)

(** The first loop of [create_samsung_device]. *)
Fixpoint samsung_scan (devices : list DeviceRecord) : option str :=
  match devices with
  | [] => None
  | d :: ds =>
      let name := lower (get_name d) in
      if contains (lit "galaxy") name || contains (lit "samsung") name
         || contains (lit "large") name || contains (lit "xlarge") name
      then Some (id d)
      else samsung_scan ds
  end.

Definition fallbacks : list str :=
  [lit "pixel_6"; lit "pixel_5"; lit "Nexus 6"; lit "Nexus 5X"].

(** The test of the inner fallback loop. *)
Definition fallback_hit (fallback : str) (d : DeviceRecord) : bool :=
  contains (lower fallback) (lower (get_name d))
  || contains (lower fallback) (lower (id d)).

(** The inner loop: [preferred] is assigned at the first hit. *)
Fixpoint fallback_devices (fallback : str) (devices : list DeviceRecord)
    (preferred : option str) : option str :=
  match devices with
  | [] => preferred
  | d :: ds =>
      if fallback_hit fallback d then Some (id d)
      else fallback_devices fallback ds preferred
  end.

(** The outer loop; it stops once [preferred] is true. *)
Fixpoint fallback_scan (fbs : list str) (devices : list DeviceRecord)
    (preferred : option str) : option str :=
  match fbs with
  | [] => preferred
  | fallback :: rest =>
      let preferred := fallback_devices fallback devices preferred in
      if truthy preferred then preferred
      else fallback_scan rest devices preferred
  end.

(** The value of [preferred] that [create_samsung_device] passes on. *)
Definition samsung_profile (devices : list DeviceRecord) : option str :=
  let preferred := samsung_scan devices in
  if negb (truthy preferred) then fallback_scan fallbacks devices preferred
  else preferred.

(** The loop of [create_pixel_device]. *)
Fixpoint pixel_profile (devices : list DeviceRecord) : option str :=
  match devices with
  | [] => None
  | d :: ds =>
      let name := lower (get_name d) in
      if contains (lit "pixel") name
         || contains (lit "pixel_6") (lower (id d))
         || contains (lit "pixel_3") (lower (id d))
      then Some (id d)
      else pixel_profile ds
  end.

(** ** Effects

    The script talks to the outside through child processes, [print] and
    [input].  A [world] holds how each child would behave, the lines the
    user is going to type, and the trace of what the script has done. *)

Inductive exn : Type :=
  | CalledProcessError (cmd : list str)
  | ValueError
  | IndexError
  | EOFError.

(** What [subprocess.run] reports about a finished child: whether it
    exited with status zero, and its standard output as decoded text.
    Starting the child and decoding its output are taken to succeed; what
    the child itself writes to the console is not part of the trace.

    Outside the model are therefore: a command that cannot be started
    ([OSError] and its subclasses), arguments that [subprocess] refuses
    ([ValueError], an embedded null character), an output that is not
    valid text ([UnicodeDecodeError]), and a child that never ends.  What
    is proved of a command that is run speaks of the runs in which it
    was started and came to an exit status. *)
Record completed : Type := mkCompleted {
  exit_ok : bool;
  stdout : str;
}.

Inductive event : Type :=
  | Printed (line : str)          (* print(line) *)
  | PrintExc (e : exn)          (* print(e): the message of the exception *)
  | Prompt (text : str)         (* the prompt written by input(text) *)
  | Spawn (cmd : list str).     (* a child started with this argument vector *)

Record world : Type := mkWorld {
  children : list str → completed;
  stdin : list str;
  trace : list event;
}.

Inductive outcome (A : Type) : Type :=
  | Return (a : A)
  | Raise (e : exn).
Arguments Return {A} a.
Arguments Raise {A} e.

Definition M (A : Type) : Type := world → outcome A * world.

#[global] Instance M_ret : MRet M := λ A a w, (Return a, w).

#[global] Instance M_bind : MBind M := λ A B f m w,
  match m w with
  | (Return a, w') => f a w'
  | (Raise e, w') => (Raise e, w')
  end.

Definition emit (e : event) : M unit := λ w,
  (Return (), mkWorld (children w) (stdin w) (trace w ++ [e])).

Definition print (line : str) : M unit := emit (Printed line).

(** [input(text)]: the prompt is written, then one line is read; the end
    of the input raises [EOFError]. *)
Definition input (text : str) : M str := λ w,
  match stdin w with
  | [] => (Raise EOFError, mkWorld (children w) [] (trace w ++ [Prompt text]))
  | l :: rest => (Return l, mkWorld (children w) rest (trace w ++ [Prompt text]))
  end.

(** [subprocess.run(cmd, check=check, ...)] *)
Definition subprocess_run (cmd : list str) (check : bool) : M completed := λ w,
  let res := children w cmd in
  let w' := mkWorld (children w) (stdin w) (trace w ++ [Spawn cmd]) in
  if check && negb (exit_ok res) then (Raise (CalledProcessError cmd), w')
  else (Return res, w').

(** [try: body except <classes>: handler] *)
Definition try_except {A} (body : M A) (catches : exn → bool)
    (handler : exn → M A) : M A := λ w,
  match body w with
  | (Raise e, w') => if catches e then handler e w' else (Raise e, w')
  | r => r
  end.

Definition is_CalledProcessError (e : exn) : bool :=
  match e with CalledProcessError _ => true | _ => false end.

(** Every exception of the model is a subclass of [Exception]. *)
Definition is_Exception (e : exn) : bool := true.

(** Lift a partial builtin, raising [e] where it has no value. *)
Definition or_raise {A} (e : exn) (o : option A) : M A :=
  match o with Some a => mret a | None => λ w, (Raise e, w) end.

(** ** Configurable defaults *)

Definition DEFAULT_API_LEVEL : str := lit "31".
Definition DEFAULT_ABI : str := lit "x86_64".
Definition DEFAULT_TAG : str := lit "google_apis".

(** ** [run] *)

Definition run (cmd : list str) : M completed :=
  print (lit "+ " ++ join (lit " ") cmd);;
  subprocess_run cmd true.

(** ** [list_avd_devices] *)

Definition list_avd_devices (avdmanager_path : option str)
    : M (list DeviceRecord) :=
  if negb (truthy avdmanager_path) then mret []
  else
    let path := default [] avdmanager_path in
    try_except
      (res ← subprocess_run [path; lit "list"; lit "device"] true;
       mret (parse_catalog (stdout res)))
      is_Exception
      (λ _, mret []).

(** ** [ensure_system_image] and [create_avd] *)

(** f"system-images;android-{api};{tag};{abi}" *)
Definition system_image_pkg (api tag abi : str) : str :=
  lit "system-images;android-" ++ api ++ lit ";" ++ tag ++ lit ";" ++ abi.

Definition ensure_system_image (sdkmanager_path : option str)
    (api tag abi : str) : M unit :=
  if negb (truthy sdkmanager_path) then
    print (lit "sdkmanager not found; cannot install system images automatically.")
  else
    let path := default [] sdkmanager_path in
    let pkg := system_image_pkg api tag abi in
    print (lit "Ensuring system image package is installed: " ++ pkg);;
    try_except
      (run [path; pkg];; mret ())
      is_CalledProcessError
      (λ e,
        print (lit "sdkmanager failed. You may need to run the command manually with correct SDK tools installed.");;
        emit (PrintExc e)).

(** The argument vector that [create_avd] composes. *)
Definition create_avd_cmd (path name pkg : str) (device_profile : option str)
    : list str :=
  let cmd := [path; lit "create"; lit "avd"; lit "--name"; name;
              lit "--package"; pkg; lit "--force"] in
  if truthy device_profile
  then cmd ++ [lit "--device"; default [] device_profile]
  else cmd.

(** [device_profile or 'default'] *)
Definition profile_or_default (device_profile : option str) : str :=
  if truthy device_profile then default [] device_profile else lit "default".

(** [run] does not capture the child's output, so the [stdout] and
    [stderr] of the exception are [None] and the handler prints only its
    first line. *)
Definition create_avd (avdmanager_path sdkmanager_path : option str)
    (name : str) (device_profile : option str) (api : str) : M unit :=
  ensure_system_image sdkmanager_path api DEFAULT_TAG DEFAULT_ABI;;
  let pkg := system_image_pkg api DEFAULT_TAG DEFAULT_ABI in
  if negb (truthy avdmanager_path) then
    print (lit "avdmanager not found. Install Android command-line tools and ensure avdmanager is on PATH.")
  else
    let path := default [] avdmanager_path in
    let cmd := create_avd_cmd path name pkg device_profile in
    print (lit "Creating AVD '" ++ name ++ lit "' (device profile: "
           ++ profile_or_default device_profile ++ lit ")");;
    try_except
      (run cmd;;
       print (lit "AVD '" ++ name ++ lit "' created."))
      is_CalledProcessError
      (λ _, print (lit "Failed to create AVD. Output:")).

(** ** [create_samsung_device] and [create_pixel_device]

    [found_tools] is the dictionary from tool names to resolved paths. *)

Definition create_samsung_device (found_tools : gmap str str) : M unit :=
  let avdmanager_path := found_tools !! lit "avdmanager" in
  let sdkmanager_path := found_tools !! lit "sdkmanager" in
  devices ← list_avd_devices avdmanager_path;
  let preferred := samsung_profile devices in
  let avd_name := lit "Samsung_Device_AVD" in
  create_avd avdmanager_path sdkmanager_path avd_name preferred DEFAULT_API_LEVEL;;
  print (lit "You can start the emulator with option to run headless or with window.").

Definition create_pixel_device (found_tools : gmap str str) : M unit :=
  let avdmanager_path := found_tools !! lit "avdmanager" in
  let sdkmanager_path := found_tools !! lit "sdkmanager" in
  devices ← list_avd_devices avdmanager_path;
  let preferred := pixel_profile devices in
  let avd_name := lit "Pixel_Device_AVD" in
  create_avd avdmanager_path sdkmanager_path avd_name preferred DEFAULT_API_LEVEL;;
  print (lit "Pixel-like AVD created.").

(** ** [choose_connected_device] *)

(** The loop over [lines[1:]] of the output of [adb devices]: a line
    contributes its first two fields when it has at least two. *)
Fixpoint connected_of_lines (lines : list str) : list (str * str) :=
  match lines with
  | [] => []
  | l :: rest =>
      if negb (truthy_str (strip l)) then connected_of_lines rest
      else match split_ws l with
           | serial :: state :: _ => (serial, state) :: connected_of_lines rest
           | _ => connected_of_lines rest
           end
  end.

Definition connected_devices (stdout : str) : list (str * str) :=
  connected_of_lines (drop 1 (splitlines (strip stdout))).

(** [for idx, (serial, state) in enumerate(devices, 1): print(...)] *)
Fixpoint print_devices (idx : nat) (devices : list (str * str)) : M unit :=
  match devices with
  | [] => mret ()
  | (serial, state) :: rest =>
      print (str_of_nat idx ++ lit ") " ++ serial ++ lit " (" ++ state ++ lit ")");;
      print_devices (S idx) rest
  end.

Definition choose_connected_device (adb_path : option str) : M (option str) :=
  if negb (truthy adb_path) then
    print (lit "adb not found.");; mret None
  else
    let path := default [] adb_path in
    try_except
      (res ← subprocess_run [path; lit "devices"] true;
       let devices := connected_devices (stdout res) in
       match devices with
       | [] => print (lit "No devices/emulators attached.");; mret None
       | _ =>
           print (lit "Connected devices/emulators:");;
           print_devices 1 devices;;
           line ← input (lit "Pick device number (default 1): ");
           let choice := strip line in
           let choice := if negb (truthy_str choice) then lit "1" else choice in
           try_except
             (n ← or_raise ValueError (py_int choice);
              let i := n - 1 in
              d ← or_raise IndexError (py_index devices i);
              mret (Some (fst d)))
             is_Exception
             (λ _, print (lit "Invalid choice.");; mret None)
       end)
      is_CalledProcessError
      (λ _, print (lit "adb devices failed.");; mret None).

(** ** [create_system_image_dump] *)

Definition remote_img : str := lit "/sdcard/system.img".

Definition dd_cmd : str :=
  lit "su -c 'dd if=/dev/block/by-name/system of=" ++ remote_img
  ++ lit " bs=4096 || dd if=/dev/block/platform/*/by-name/system of="
  ++ remote_img ++ lit " bs=4096'".

(** Method 1: the block-level copy, the pull and the clean-up. *)
Definition dump_by_dd (adb serial : str) : M unit :=
  print (lit "Attempting dd on device (this will likely fail on unrooted devices).");;
  try_except
    (run [adb; lit "-s"; serial; lit "shell"; dd_cmd];;
     let local_name := serial ++ lit "_system.img" in
     run [adb; lit "-s"; serial; lit "pull"; remote_img; local_name];;
     print (lit "Pulled image to " ++ local_name);;
     print (lit "Cleaning remote image " ++ remote_img);;
     run [adb; lit "-s"; serial; lit "shell"; lit "rm " ++ remote_img];;
     mret ())
    is_CalledProcessError
    (λ _, print (lit "Failed to dd/pull system image. Check if the device is rooted or try method 2 (pull /system).")).

(** Method 2: the recursive pull of /system. *)
Definition dump_by_pull (adb serial : str) : M unit :=
  let local_dir := serial ++ lit "_system" in
  print (lit "Attempting to pull /system -> " ++ local_dir
         ++ lit " (may be restricted on modern devices).");;
  try_except
    (run [adb; lit "-s"; serial; lit "pull"; lit "/system"; local_dir];;
     print (lit "/system pulled to local directory: " ++ local_dir))
    is_CalledProcessError
    (λ _, print (lit "Recursive pull failed. Consider using a rooted device or an emulator to perform a full dump.")).

Definition create_system_image_dump (found_tools : gmap str str) : M unit :=
  let adb_path := found_tools !! lit "adb" in
  if negb (truthy adb_path) then
    print (lit "adb not found. Cannot continue.")
  else
    let adb := default [] adb_path in
    serial ← choose_connected_device adb_path;
    if negb (truthy serial) then mret ()
    else
      let serial := default [] serial in
      print (lit "NOTE: Creating a system image typically requires root on the target device or running an emulator.");;
      print (lit "Options:");;
      print (lit "1) Attempt a block-level dd (requires root).");;
      print (lit "2) Try a recursive pull of /system (may be limited by permissions).");;
      line ← input (lit "Choose method (1 or 2) [1]: ");
      let choice := if truthy_str (strip line) then strip line else lit "1" in
      if bool_decide (choice = lit "1") then dump_by_dd adb serial
      else dump_by_pull adb serial.

(** The commands started during a run, in order. *)
Definition spawned (t : list event) : list (list str) :=
  omap (λ e, match e with Spawn cmd => Some cmd | _ => None end) t.

(** The lines passed to [print] during a run, in order. *)
Definition printed_lines (t : list event) : list str :=
  omap (λ e, match e with Printed l => Some l | _ => None end) t.

(** ** The tool locator: [which_or_env] and [ensure_tools]

    What the script can see of the machine it runs on: the answer of
    [shutil.which] for a name, the process environment, and
    [os.path.exists].  Paths are POSIX paths. *)

Record os_env : Type := mkOs {
  which : str → option str;
  environ : gmap str str;
  path_exists : str → bool;
}.

(** [s.endswith(suffix)] *)
Definition endswith (suffix s : str) : bool :=
  startswith (reverse suffix) (reverse s).

(** [os.path.join(a, *parts)] of [posixpath]: a part that starts with a
    slash replaces what precedes it; otherwise it is appended, after a
    slash unless the path so far is empty or already ends with one. *)
Fixpoint path_join (path : str) (parts : list str) : str :=
  match parts with
  | [] => path
  | b :: rest =>
      if startswith (lit "/") b then path_join b rest
      else if negb (truthy_str path) || endswith (lit "/") path
           then path_join (path ++ b) rest
      else path_join (path ++ lit "/" ++ b) rest
  end.

(** [a or b] on two [Optional[str]]. *)
Definition py_or (a b : option str) : option str :=
  if truthy a then a else b.

(** The four places probed under the SDK root, in the order of the
    source. *)
Definition possible (sdk_root tool_name : str) : list str :=
  [path_join sdk_root [lit "tools"; lit "bin"; tool_name];
   path_join sdk_root [lit "cmdline-tools"; lit "latest"; lit "bin"; tool_name];
   path_join sdk_root [lit "cmdline-tools"; lit "bin"; tool_name];
   path_join sdk_root [lit "platform-tools"; tool_name]].

(** [for pp in possible: if os.path.exists(pp): return pp] *)
Fixpoint first_existing (os : os_env) (paths : list str) : option str :=
  match paths with
  | [] => None
  | pp :: rest => if path_exists os pp then Some pp else first_existing os rest
  end.

Definition which_or_env (os : os_env) (tool_name : str) : option str :=
  let p := which os tool_name in
  if truthy p then p
  else
    let sdk_root := py_or (environ os !! lit "ANDROID_SDK_ROOT")
                          (environ os !! lit "ANDROID_HOME") in
    if negb (truthy sdk_root) then None
    else first_existing os (possible (default [] sdk_root) tool_name).

Definition TOOLS : list str :=
  [lit "sdkmanager"; lit "avdmanager"; lit "emulator"; lit "adb"].

(** The loop of [ensure_tools] over [TOOLS]. *)
Fixpoint ensure_tools_loop (os : os_env) (tools : list str)
    (missing : list str) (found : gmap str str) : list str * gmap str str :=
  match tools with
  | [] => (missing, found)
  | t :: rest =>
      let p := which_or_env os t in
      if negb (truthy p) then ensure_tools_loop os rest (missing ++ [t]) found
      else ensure_tools_loop os rest missing (<[t := default [] p]> found)
  end.

Definition ensure_tools (os : os_env) : M (gmap str str) :=
  let '(missing, found) := ensure_tools_loop os TOOLS [] ∅ in
  match missing with
  | [] => mret found
  | _ =>
      print (lit "Warning: Some Android SDK tools were not found: "
             ++ join (lit ", ") missing);;
      print (lit "Make sure ANDROID_SDK_ROOT or ANDROID_HOME is set and sdk commandline tools are installed.");;
      mret found
  end.

(** ** [setup_shizuku] *)

(** The advice printed at the end of [setup_shizuku], whatever happened
    before. *)
Definition shizuku_advice : list str :=
  [lit "You can start the Shizuku server on a rooted device with a command like:";
   lit "  adb shell su -c 'sh /data/local/tmp/shizuku_start.sh'  # if you have the script on device";
   lit "Or on emulator you can run the server binary and then grant permissions via the app UI.";
   lit "For non-rooted devices, Shizuku supports ADB mode using 'adb shell sh /data/local/tmp/start.sh' but it requires manual steps.";
   lit "Refer to Shizuku docs: https://shizuku.rikka.app/"].

Fixpoint print_all (lines : list str) : M unit :=
  match lines with
  | [] => mret ()
  | l :: rest => print l;; print_all rest
  end.

Definition setup_shizuku (os : os_env) (found_tools : gmap str str) : M unit :=
  let adb_path := found_tools !! lit "adb" in
  if negb (truthy adb_path) then print (lit "adb not found.")
  else
    let adb := default [] adb_path in
    print (lit "Shizuku setup helper.");;
    line ← input (lit "Path to Shizuku APK to install (leave empty to skip install): ");
    let apk_path := strip line in
    (if truthy_str apk_path then
       if negb (path_exists os apk_path) then
         print (lit "APK path does not exist.")
       else
         try_except
           (run [adb; lit "install"; lit "-r"; apk_path];;
            print (lit "APK installed (or reinstalled)."))
           is_CalledProcessError
           (λ _, print (lit "Failed to install APK via adb."))
     else mret ());;
    print_all shizuku_advice.

(** ** [main_menu]

    The [while True] loop runs on fuel: [Some ()] is the loop left by
    [break], [None] is the fuel used up before that.  Every turn reads at
    least one line, so the pending input bounds the fuel needed.  The
    interrupt signal, which the script turns into a clean exit, is not
    part of the model. *)

Definition menu_text : list str :=
  [[LF] ++ lit "Main Menu";
   lit "1) Create Samsung device";
   lit "2) Create a Pixel Device";
   lit "3) Create System Image dump";
   lit "4) Setup Shizuku";
   lit "q) Quit"].

Definition quit_words : list str := [lit "q"; lit "quit"; lit "exit"].

Fixpoint main_menu_loop (fuel : nat) (os : os_env) (found_tools : gmap str str)
    : M (option unit) :=
  match fuel with
  | O => mret None
  | S fuel =>
      print_all menu_text;;
      line ← input (lit "Choose an option: ");
      let choice := lower (strip line) in
      if bool_decide (choice ∈ quit_words) then
        print (lit "Exiting.");; mret (Some ())
      else
        (if bool_decide (choice = lit "1") then create_samsung_device found_tools
         else if bool_decide (choice = lit "2") then create_pixel_device found_tools
         else if bool_decide (choice = lit "3") then create_system_image_dump found_tools
         else if bool_decide (choice = lit "4") then setup_shizuku os found_tools
         else print (lit "Unknown choice."));;
        main_menu_loop fuel os found_tools
  end.

Definition main_menu (fuel : nat) (os : os_env) : M (option unit) :=
  found_tools ← ensure_tools os;
  print (lit "Simple Android AVD + Dump helper");;
  main_menu_loop fuel os found_tools.

(** * Vocabulary of the specification *)

(** A text that fits on one line: it holds no line boundary. *)
Definition one_line (s : str) : Prop := Forall (λ c, is_linebreak c = false) s.

(** A text made of whitespace only. *)
Definition blank (s : str) : Prop := Forall (λ c, isspace c = true) s.

(** A well-formed pair of catalog lines: an [id:] line and a [name:]
    line, each possibly indented, each on one line. *)
Record catalog_pair : Type := mkPair {
  id_indent : str;
  id_value : str;
  name_indent : str;
  name_value : str;
}.

Definition id_line (p : catalog_pair) : str :=
  id_indent p ++ lit "id:" ++ id_value p.

Definition name_line (p : catalog_pair) : str :=
  name_indent p ++ lit "name:" ++ name_value p.

Definition well_formed (p : catalog_pair) : Prop :=
  blank (id_indent p) ∧ blank (name_indent p)
  ∧ one_line (id_line p) ∧ one_line (name_line p).

Fixpoint catalog_lines (pairs : list catalog_pair) : list str :=
  match pairs with
  | [] => []
  | p :: rest => id_line p :: name_line p :: catalog_lines rest
  end.

(** The lines separated by LF, with or without a final LF. *)
Definition catalog_text (final_newline : bool) (pairs : list catalog_pair) : str :=
  join [LF] (catalog_lines pairs) ++ (if final_newline then [LF] else []).

(** The record a pair stands for. *)
Definition record_of (p : catalog_pair) : DeviceRecord :=
  mkDevice (strip (id_value p)) (Some (strip (name_value p))).

(** [s] contains [kw] as a substring, letter case left aside. *)
Definition ci_contains (kw s : str) : Prop :=
  ∃ pre post, lower s = pre ++ lower kw ++ post.

Definition samsung_keywords : list str :=
  [lit "galaxy"; lit "samsung"; lit "large"; lit "xlarge"].

(** The record's name contains one of the Samsung keywords. *)
Definition samsung_match (d : DeviceRecord) : Prop :=
  ∃ kw, kw ∈ samsung_keywords ∧ ci_contains kw (get_name d).

(** The record's name or identifier contains the fallback string. *)
Definition fallback_match (fallback : str) (d : DeviceRecord) : Prop :=
  ci_contains fallback (get_name d) ∨ ci_contains fallback (id d).

(** The record's name contains "pixel", or its identifier contains
    "pixel_6" or "pixel_3". *)
Definition pixel_match (d : DeviceRecord) : Prop :=
  ci_contains (lit "pixel") (get_name d)
  ∨ ci_contains (lit "pixel_6") (id d)
  ∨ ci_contains (lit "pixel_3") (id d).

(** The installation command of the provisioner, when [sdkmanager] was
    located. *)
Definition install_cmds (sdkmanager_path : option str) (api : str)
    : list (list str) :=
  if truthy sdkmanager_path
  then [[default [] sdkmanager_path; system_image_pkg api DEFAULT_TAG DEFAULT_ABI]]
  else [].

(** The creation command of the provisioner, when [avdmanager] was
    located. *)
Definition creation_cmds (avdmanager_path : option str) (name : str)
    (device_profile : option str) (api : str) : list (list str) :=
  if truthy avdmanager_path
  then [create_avd_cmd (default [] avdmanager_path) name
          (system_image_pkg api DEFAULT_TAG DEFAULT_ABI) device_profile]
  else [].

(** ** Worlds of the examples *)

(** Every child fails and prints nothing. *)
Definition failing_world (lines : list str) : world :=
  mkWorld (λ _, mkCompleted false []) lines [].

(** Every child succeeds; [tool list device] and [tool devices] print
    [out], every other child prints nothing. *)
Definition listing_world (out : str) (lines : list str) : world :=
  mkWorld
    (λ cmd, match cmd with
            | [_; a; b] =>
                if bool_decide (a = lit "list") && bool_decide (b = lit "device")
                then mkCompleted true out else mkCompleted true []
            | [_; a] =>
                if bool_decide (a = lit "devices")
                then mkCompleted true out else mkCompleted true []
            | _ => mkCompleted true []
            end)
    lines [].

(** The catalog text of the end-to-end example: [id: 23], then
    [name: "pixel_5"] in double quotes. *)
Definition pixel_5_text : str :=
  lit "id: 23" ++ [LF] ++ lit "name: " ++ [dquote] ++ lit "pixel_5" ++ [dquote].

(** One emulator attached, as [adb devices] prints it. *)
Definition one_device_text : str :=
  lit "List of devices attached" ++ [LF]
  ++ lit "emulator-5554" ++ [chr 9] ++ lit "device" ++ [LF].

(** A catalog listing [pixel_5] before [pixel_6]. *)
Definition pixel_5_then_6_text : str :=
  lit "id: pixel_5" ++ [LF] ++ lit "name: A" ++ [LF]
  ++ lit "id: pixel_6" ++ [LF] ++ lit "name: B" ++ [LF].

(** A catalog whose Galaxy record has an [id:] line without a value. *)
Definition galaxy_without_id_text : str :=
  lit "id:" ++ [LF] ++ lit "name: Galaxy" ++ [LF]
  ++ lit "id: pixel_6" ++ [LF] ++ lit "name: x" ++ [LF].

(** The lines that list the attached devices, numbered from [idx]. *)
Fixpoint device_lines (idx : nat) (devices : list (str * str)) : list event :=
  match devices with
  | [] => []
  | (serial, state) :: rest =>
      Printed (str_of_nat idx ++ lit ") " ++ serial ++ lit " (" ++ state ++ lit ")")
      :: device_lines (S idx) rest
  end.

(** What the console shows up to the moment the device number is read. *)
Definition chooser_prelude (path : str) (devices : list (str * str))
    : list event :=
  [Spawn [path; lit "devices"]; Printed (lit "Connected devices/emulators:")]
  ++ device_lines 1 devices
  ++ [Prompt (lit "Pick device number (default 1): ")].

(** ** What an operation may do

    [contained P n m]: from every world, [m] leaves the children as they
    are, reads at most [n] lines of the console, and raises only
    exceptions accepted by [P]; when it raises [EOFError] the input is
    used up. *)
Definition contained {A} (P : exn → bool) (n : nat) (m : M A) : Prop :=
  ∀ w, ∃ k, (k ≤ n)%nat
    ∧ children (snd (m w)) = children w
    ∧ stdin (snd (m w)) = drop k (stdin w)
    ∧ match fst (m w) with
      | Return _ => True
      | Raise e => P e = true ∧ (e = EOFError → stdin (snd (m w)) = [])
      end.

Definition no_exn (e : exn) : bool := false.

Definition only_eof (e : exn) : bool :=
  match e with EOFError => true | _ => false end.

Definition only_called (e : exn) : bool := is_CalledProcessError e.

Definition eof_or_called (e : exn) : bool :=
  only_eof e || only_called e.

(** ** Lines of a catalog text *)

(** The line opens a record. *)
Definition is_id_line (l : str) : bool := startswith (lit "id:") (strip l).

(** The line names the record being read. *)
Definition is_name_line (l : str) : bool := startswith (lit "name:") (strip l).

(** The value of an [id:] or [name:] line: what follows the first colon,
    stripped. *)
Definition field (l : str) : str := strip (default [] (after_colon (strip l))).

(** A block of a catalog text: one [id:] line and the [name:] lines that
    follow it. *)
Definition block_lines (b : str * list str) : list str := fst b :: snd b.

Definition well_formed_block (b : str * list str) : Prop :=
  is_id_line (fst b) = true ∧ Forall (λ l, is_name_line l = true) (snd b).

(** The record of a block: the value of its [id:] line and, as name, the
    value of its last [name:] line. *)
Definition block_record (b : str * list str) : DeviceRecord :=
  mkDevice (field (fst b)) (last (field <$> snd b)).

(** Two catalogs with the same identifiers and the same names up to
    letter case. *)
Definition same_up_to_case (ds ds' : list DeviceRecord) : Prop :=
  Forall2 (λ d d', id d = id d' ∧ lower (get_name d) = lower (get_name d')) ds ds'.

(** The first two whitespace-separated fields of a line, when it has
    two. *)
Definition first_two_fields (l : str) : option (str * str) :=
  match split_ws l with
  | serial :: state :: _ => Some (serial, state)
  | _ => None
  end.





(** The SDK root with one slash at its end. *)
Definition with_slash (sdk_root : str) : str :=
  if endswith (lit "/") sdk_root then sdk_root else sdk_root ++ lit "/".

(** The tools that [which_or_env] does not locate, in the order of
    [TOOLS]. *)
Definition missing_tools (os : os_env) : list str :=
  List.filter (λ t, negb (truthy (which_or_env os t))) TOOLS.

(** The two lines of the warning of [ensure_tools]. *)
Definition missing_warning (missing : list str) : list event :=
  match missing with
  | [] => []
  | _ =>
      [Printed (lit "Warning: Some Android SDK tools were not found: "
                ++ join (lit ", ") missing);
       Printed (lit "Make sure ANDROID_SDK_ROOT or ANDROID_HOME is set and sdk commandline tools are installed.")]
  end.

(** A machine of the examples: nothing on PATH, [ANDROID_HOME] set to
    [/sdk], and [adb] present under [platform-tools] only. *)
Definition home_sdk_os : os_env :=
  mkOs (λ _, None) {[ lit "ANDROID_HOME" := lit "/sdk" ]}
    (λ q, bool_decide (q = lit "/sdk/platform-tools/adb")).

(** The identifier of the first record whose name, in lower case,
    contains one of [keywords]. *)
Fixpoint first_named (keywords : list str) (devices : list DeviceRecord)
    : option str :=
  match devices with
  | [] => None
  | d :: ds =>
      if existsb (λ kw, contains kw (lower (get_name d))) keywords
      then Some (id d)
      else first_named keywords ds
  end.

(** The child started with [cmd] in the world [w] runs to its end, with
    exit status zero exactly when [ok] holds.  A premise of this form
    says of a command that it could be started and that it finished. *)
Definition exits_with (w : world) (cmd : list str) (ok : bool) : Prop :=
  exit_ok (children w cmd) = ok.

(** What the installation step writes and starts, [ok] telling whether
    the installation exits with status zero. *)
Definition install_events (sdkmanager_path : option str) (api : str)
    (ok : bool) : list event :=
  if truthy sdkmanager_path then
    let pkg := system_image_pkg api DEFAULT_TAG DEFAULT_ABI in
    let cmd := [default [] sdkmanager_path; pkg] in
    [Printed (lit "Ensuring system image package is installed: " ++ pkg);
     Printed (lit "+ " ++ join (lit " ") cmd);
     Spawn cmd]
    ++ (if ok then []
        else [Printed (lit "sdkmanager failed. You may need to run the command manually with correct SDK tools installed.");
              PrintExc (CalledProcessError cmd)])
  else
    [Printed (lit "sdkmanager not found; cannot install system images automatically.")].

(** What the creation step writes and starts, [ok] telling whether the
    creation exits with status zero. *)
Definition creation_events (avdmanager_path : option str) (name : str)
    (device_profile : option str) (api : str) (ok : bool) : list event :=
  if truthy avdmanager_path then
    let cmd := create_avd_cmd (default [] avdmanager_path) name
                 (system_image_pkg api DEFAULT_TAG DEFAULT_ABI) device_profile in
    [Printed (lit "Creating AVD '" ++ name ++ lit "' (device profile: "
              ++ profile_or_default device_profile ++ lit ")");
     Printed (lit "+ " ++ join (lit " ") cmd);
     Spawn cmd;
     Printed (if ok then lit "AVD '" ++ name ++ lit "' created."
              else lit "Failed to create AVD. Output:")]
  else
    [Printed (lit "avdmanager not found. Install Android command-line tools and ensure avdmanager is on PATH.")].

(** The outcome is a [CalledProcessError] that was let out. *)
Definition lets_out_exit_status {A} (r : outcome A * world) : Prop :=
  ∃ cmd, fst r = Raise (CalledProcessError cmd).

(** The run [r] from [w] has read at most [n] lines of the input. *)
Definition reads_at_most {A} (n : nat) (w : world) (r : outcome A * world)
    : Prop :=
  ∃ k, (k ≤ n)%nat ∧ stdin (snd r) = drop k (stdin w).

(** * Properties *)

(** ** The builtins on examples *)

Example splitlines_ex :
  splitlines (lit "ab" ++ [LF] ++ [CR; LF] ++ lit "c" ++ [LF])
  = [lit "ab"; []; lit "c"].
Proof. reflexivity. Qed.

Example py_int_ex :
  (py_int (lit "2"), py_int (lit "-1"), py_int (lit "1_0"), py_int (lit "1__0"),
   py_int (lit "_1"), py_int [], py_int (lit "+07"), py_int (lit "x"))
  = (Some 2, Some (-1), Some 10, None, None, None, Some 7, None).
Proof. reflexivity. Qed.

Example py_index_ex :
  (py_index [1; 2; 3] 0, py_index [1; 2; 3] (-1), py_index [1; 2; 3] 3,
   py_index [1; 2; 3] (-3), py_index [1; 2; 3] (-4))
  = (Some 1, Some 3, None, Some 1, None).
Proof. reflexivity. Qed.

Example strip_ex : strip (lit "  id: 23 ") = lit "id: 23".
Proof. reflexivity. Qed.

Example split_ws_ex :
  split_ws (lit "emulator-5554" ++ [chr 9] ++ lit "device ")
  = [lit "emulator-5554"; lit "device"].
Proof. reflexivity. Qed.

(** ** Strings *)

Section StringFacts.
Implicit Types (s p v : str) (c : ascii).

Lemma startswith_spec p s :
  startswith p s = true ↔ ∃ r, s = p ++ r.
Proof.
  revert s; induction p as [|a p IH]; intros [|b s]; simpl.
  - split; [by exists [] | done].
  - split; [by exists (b :: s) | done].
  - split; [done | by intros [r Hr]].
  - rewrite andb_true_iff, bool_decide_eq_true, IH. split.
    + intros [-> [r ->]]. by exists r.
    + intros [r Hr]. injection Hr as -> ->. eauto.
Qed.

Lemma contains_spec p s :
  contains p s = true ↔ ∃ pre post, s = pre ++ p ++ post.
Proof.
  induction s as [|b s IH]; simpl.
  - rewrite orb_false_r, startswith_spec. split.
    + intros [r Hr]. by exists [], r.
    + intros (pre & post & H). symmetry in H.
      apply app_eq_nil in H as [-> H]. apply app_eq_nil in H as [-> ->].
      by exists [].
  - rewrite orb_true_iff, startswith_spec, IH. split.
    + intros [[r Hr] | (pre & post & ->)].
      * by exists [], r.
      * by exists (b :: pre), post.
    + intros ([|b' pre] & post & H); simpl in H.
      * left. eauto.
      * right. injection H as -> ->. eauto.
Qed.

Lemma dropwhile_app f s v :
  dropwhile f (s ++ v)
  = match dropwhile f s with [] => dropwhile f v | r => r ++ v end.
Proof.
  induction s as [|c s IH]; simpl; [by destruct (dropwhile f v)|].
  by destruct (f c).
Qed.

Lemma dropwhile_idemp f s : dropwhile f (dropwhile f s) = dropwhile f s.
Proof.
  induction s as [|c s IH]; simpl; [done|].
  destruct (f c) eqn:E; [done|]. simpl. by rewrite E.
Qed.

Lemma dropwhile_nil f s : dropwhile f s = [] ↔ Forall (λ c, f c = true) s.
Proof.
  induction s as [|c s IH]; simpl.
  - split; [constructor | done].
  - destruct (f c) eqn:E.
    + rewrite IH. split; [by constructor | by inversion 1].
    + split; [done | inversion 1; congruence].
Qed.

Lemma dropwhile_head f s c r : dropwhile f s = c :: r → f c = false.
Proof.
  induction s as [|b s IH]; simpl; [done|].
  destruct (f b) eqn:E; [done|]. by intros [= <- _].
Qed.

Lemma lstrip_pad pad s :
  Forall (λ c, isspace c = true) pad → lstrip (pad ++ s) = lstrip s.
Proof.
  intros H. unfold lstrip. rewrite dropwhile_app.
  by apply dropwhile_nil in H as ->.
Qed.

Lemma rstrip_app_keep p v c :
  isspace c = false → rstrip ((p ++ [c]) ++ v) = (p ++ [c]) ++ rstrip v.
Proof.
  intros Hc. unfold rstrip.
  rewrite reverse_app, dropwhile_app, (reverse_app p), reverse_singleton.
  destruct (dropwhile isspace (reverse v)) as [|b r] eqn:E.
  - simpl. rewrite Hc. rewrite reverse_cons, reverse_involutive.
    by rewrite app_nil_r.
  - rewrite reverse_app. simpl.
    by rewrite reverse_cons, reverse_involutive.
Qed.

Lemma rstrip_cons c s :
  rstrip (c :: s)
  = match rstrip s with
    | [] => if isspace c then [] else [c]
    | r => c :: r
    end.
Proof.
  unfold rstrip. rewrite reverse_cons, dropwhile_app.
  destruct (dropwhile isspace (reverse s)) as [|b r] eqn:E.
  - simpl. by destruct (isspace c).
  - rewrite reverse_app, reverse_singleton. simpl.
    destruct (reverse (b :: r)) eqn:E'; [|done].
    apply (f_equal reverse) in E'. by rewrite reverse_involutive in E'.
Qed.

Lemma rstrip_idemp s : rstrip (rstrip s) = rstrip s.
Proof. unfold rstrip. by rewrite reverse_involutive, dropwhile_idemp. Qed.

Lemma lstrip_rstrip s : lstrip (rstrip s) = rstrip (lstrip s).
Proof.
  induction s as [|c s IH]; [done|].
  rewrite rstrip_cons. unfold lstrip at 2. simpl.
  destruct (isspace c) eqn:E.
  - fold (lstrip s). rewrite <- IH.
    destruct (rstrip s) as [|b r]; [done|].
    unfold lstrip. simpl. by rewrite E.
  - rewrite rstrip_cons.
    destruct (rstrip s); rewrite ?E; unfold lstrip; simpl; by rewrite E.
Qed.

Lemma strip_rstrip s : strip (rstrip s) = strip s.
Proof. unfold strip. by rewrite lstrip_rstrip, rstrip_idemp. Qed.

Lemma strip_nil s : strip s = [] ↔ Forall (λ c, isspace c = true) s.
Proof.
  unfold strip. rewrite <- lstrip_rstrip. unfold lstrip.
  rewrite dropwhile_nil. unfold rstrip. split.
  - intros H. destruct (dropwhile isspace (reverse s)) as [|b r] eqn:E.
    + apply dropwhile_nil in E.
      apply Forall_forall. intros c Hc. rewrite Forall_forall in E.
      apply E. by apply elem_of_reverse.
    + apply dropwhile_head in E. rewrite Forall_forall in H.
      rewrite (H b) in E; [done|]. apply elem_of_reverse.
      by left.
  - intros H.
    assert (dropwhile isspace (reverse s) = []) as ->; [|constructor].
    apply dropwhile_nil, Forall_forall. intros c Hc.
    rewrite Forall_forall in H. apply H. by apply elem_of_reverse.
Qed.
End StringFacts.

(** ** Lines *)

Section LineFacts.
Implicit Types (s : str) (c : ascii) (ls : list str).

Lemma splitlines_cons_plain c s :
  is_linebreak c = false →
  splitlines (c :: s)
  = match splitlines s with [] => [[c]] | l :: ls => (c :: l) :: ls end.
Proof.
  intros Hc. cbn [splitlines]. rewrite Hc.
  destruct (bool_decide_reflect (c = CR)) as [->|]; [done|done].
Qed.

Lemma splitlines_line s rest :
  one_line s → splitlines (s ++ LF :: rest) = s :: splitlines rest.
Proof.
  induction 1 as [|c s Hc _ IH]; [done|].
  rewrite <- app_comm_cons, splitlines_cons_plain by done. by rewrite IH.
Qed.

Lemma splitlines_single s : one_line s → s ≠ [] → splitlines s = [s].
Proof.
  induction 1 as [|c s Hc Hs IH]; [done|]. intros _.
  rewrite splitlines_cons_plain by done.
  destruct s as [|b s]; [done|]. by rewrite IH.
Qed.

Lemma splitlines_join ls :
  Forall (λ l, one_line l ∧ l ≠ []) ls → splitlines (join [LF] ls) = ls.
Proof.
  induction 1 as [|l ls [Hl Hne] Hls IH]; [done|].
  destruct ls as [|l' ls]; [by apply splitlines_single|].
  change (join [LF] (l :: l' :: ls)) with (l ++ LF :: join [LF] (l' :: ls)).
  by rewrite splitlines_line, IH.
Qed.

Lemma splitlines_join_newline ls :
  Forall (λ l, one_line l ∧ l ≠ []) ls → ls ≠ [] →
  splitlines (join [LF] ls ++ [LF]) = ls.
Proof.
  induction 1 as [|l ls [Hl Hne] Hls IH]; [done|]. intros _.
  destruct ls as [|l' ls].
  - simpl. by rewrite splitlines_line.
  - change (join [LF] (l :: l' :: ls)) with (l ++ LF :: join [LF] (l' :: ls)).
    rewrite <- app_assoc, <- app_comm_cons, splitlines_line by done.
    by rewrite IH.
Qed.
End LineFacts.

(** ** The catalog parser *)

Section ParserFacts.
Implicit Types (devices : list DeviceRecord) (r d : DeviceRecord).

Lemma after_colon_id (v : str) : after_colon (lit "id:" ++ v) = Some v.
Proof. reflexivity. Qed.

Lemma after_colon_name (v : str) : after_colon (lit "name:" ++ v) = Some v.
Proof. reflexivity. Qed.

Lemma name_not_id (v : str) : startswith (lit "id:") (lit "name:" ++ v) = false.
Proof. reflexivity. Qed.

Lemma startswith_app (p v : str) : startswith p (p ++ v) = true.
Proof. apply startswith_spec. by exists v. Qed.

(** An indented [key:] line is stripped to the key and the value
    without its trailing whitespace. *)
Lemma strip_keyed (pad key v : str) (c : ascii) :
  blank pad → isspace c = false → lstrip (key ++ [c]) = key ++ [c] →
  strip (pad ++ (key ++ [c]) ++ v) = (key ++ [c]) ++ rstrip v.
Proof.
  intros Hpad Hc Hkey. unfold strip. rewrite lstrip_pad by done.
  assert (lstrip ((key ++ [c]) ++ v) = (key ++ [c]) ++ v) as ->.
  { unfold lstrip in *. rewrite dropwhile_app, Hkey.
    by destruct key. }
  by apply rstrip_app_keep.
Qed.

Lemma strip_id_line (pad v : str) :
  blank pad → strip (pad ++ lit "id:" ++ v) = lit "id:" ++ rstrip v.
Proof. intros. by apply (strip_keyed pad (lit "id") v ":"%char). Qed.

Lemma strip_name_line (pad v : str) :
  blank pad → strip (pad ++ lit "name:" ++ v) = lit "name:" ++ rstrip v.
Proof. intros. by apply (strip_keyed pad (lit "name") v ":"%char). Qed.

Lemma elem_of_alter_id (f : DeviceRecord → DeviceRecord) i devices r :
  (∀ d, id (f d) = id d) →
  r ∈ alter f i devices → ∃ r0, r0 ∈ devices ∧ id r = id r0.
Proof.
  intros Hf. revert i. induction devices as [|d devices IH]; intros i Hr.
  - destruct i; simpl in Hr; by apply elem_of_nil in Hr.
  - destruct i as [|i]; simpl in Hr; apply elem_of_cons in Hr as [->|Hr].
    + exists d. split; [by left | apply Hf].
    + exists r. split; [by right | done].
    + exists d. split; [by left | done].
    + destruct (IH i Hr) as (r0 & ? & ?). exists r0. split; [by right | done].
Qed.
End ParserFacts.

Section CatalogTheorems.
Implicit Types (devices : list DeviceRecord) (pairs : list catalog_pair).

Lemma parse_pair p rest devices current :
  well_formed p →
  parse_lines (id_line p :: name_line p :: rest) devices current
  = parse_lines rest (devices ++ [record_of p]) (Some (length devices)).
Proof.
  intros (Hi & Hn & _ & _). unfold id_line, name_line.
  cbn [parse_lines].
  rewrite strip_id_line, strip_name_line by done.
  change (truthy_str (lit "id:" ++ ?v)) with true.
  change (truthy_str (lit "name:" ++ ?v)) with true.
  cbn [negb]. rewrite startswith_app, after_colon_id.
  rewrite name_not_id, startswith_app, after_colon_name.
  rewrite alter_app_r_alt by done. rewrite Nat.sub_diag. cbn [alter list_alter].
  unfold record_of, set_name. simpl. by rewrite !strip_rstrip.
Qed.

Lemma parse_catalog_lines pairs devices current :
  Forall well_formed pairs →
  parse_lines (catalog_lines pairs) devices current
  = devices ++ map record_of pairs.
Proof.
  intros H. revert devices current.
  induction H as [|p pairs Hp _ IH]; intros devices current.
  - simpl. by rewrite app_nil_r.
  - cbn [catalog_lines]. rewrite parse_pair, IH by done.
    by rewrite <- app_assoc.
Qed.

Lemma catalog_lines_good pairs :
  Forall well_formed pairs →
  Forall (λ l, one_line l ∧ l ≠ []) (catalog_lines pairs).
Proof.
  induction 1 as [|p pairs (_ & _ & Hi & Hn) _ IH]; [constructor|].
  cbn [catalog_lines]. repeat constructor; try done.
  - unfold id_line. by destruct (id_indent p).
  - unfold name_line. by destruct (name_indent p).
Qed.

(** C2: a catalog text made of N well-formed [id:]/[name:] pairs is
    parsed to exactly N records, in the order of the pairs; the record
    of a pair has the stripped text after [id:] as its identifier and
    the stripped text after [name:] as its name. *)
Theorem parse_catalog_well_formed_pairs pairs final_newline :
  Forall well_formed pairs →
  parse_catalog (catalog_text final_newline pairs) = map record_of pairs
  ∧ length (parse_catalog (catalog_text final_newline pairs)) = length pairs.
Proof.
  intros H.
  assert (parse_catalog (catalog_text final_newline pairs)
          = map record_of pairs) as E.
  { unfold parse_catalog, catalog_text.
    destruct pairs as [|p pairs]; [by destruct final_newline|].
    pose proof (catalog_lines_good _ H) as Hgood.
    destruct final_newline.
    - rewrite splitlines_join_newline by done.
      by rewrite parse_catalog_lines.
    - rewrite app_nil_r, splitlines_join by done.
      by rewrite parse_catalog_lines. }
  split; [done|]. by rewrite E, length_map.
Qed.

Lemma parse_catalog_well_formed_pairs_witness :
  parse_catalog (lit " id: 23" ++ [LF] ++ lit "  name: Pixel 5 " ++ [LF]
                 ++ lit "id: 24 " ++ [LF] ++ lit "name:Nexus 6")
  = [mkDevice (lit "23") (Some (lit "Pixel 5"));
     mkDevice (lit "24") (Some (lit "Nexus 6"))].
Proof.
  refine (proj1 (parse_catalog_well_formed_pairs
                   [mkPair (lit " ") (lit " 23") (lit "  ") (lit " Pixel 5 ");
                    mkPair [] (lit " 24 ") [] (lit "Nexus 6")] false _)).
  repeat constructor; vm_compute; repeat constructor.
Defined.
End CatalogTheorems.

Section IdentifierTheorems.
Implicit Types (devices : list DeviceRecord) (r : DeviceRecord).

(** Where the identifier of a parsed record comes from: a record already
    collected, or one of the lines still to read. *)
Lemma parse_lines_id_origin lines devices current r :
  r ∈ parse_lines lines devices current →
  (∃ r0, r0 ∈ devices ∧ id r = id r0)
  ∨ ∃ l rest, l ∈ lines ∧ strip l = lit "id:" ++ rest ∧ id r = strip rest.
Proof.
  revert devices current.
  induction lines as [|l lines IH]; intros devices current; cbn [parse_lines].
  { intros Hr. left. by exists r. }
  assert (∀ devs cur,
    (∀ r0, r0 ∈ devs → ∃ r1, r1 ∈ devices ∧ id r0 = id r1) →
    r ∈ parse_lines lines devs cur →
    (∃ r0, r0 ∈ devices ∧ id r = id r0)
    ∨ ∃ l0 rest, l0 ∈ l :: lines ∧ strip l0 = lit "id:" ++ rest
                 ∧ id r = strip rest) as Hskip.
  { intros devs cur Hsub Hr.
    destruct (IH _ _ Hr) as [(r0 & Hr0 & E) | (l0 & rest & ? & ? & ?)].
    - left. destruct (Hsub _ Hr0) as (r1 & ? & E'). exists r1.
      split; [done | congruence].
    - right. exists l0, rest. split; [by right | done]. }
  assert (∀ r0, r0 ∈ devices → ∃ r1, r1 ∈ devices ∧ id r0 = id r1) as Hsame
    by eauto.
  destruct (negb (truthy_str (strip l))); [by apply Hskip|].
  destruct (startswith (lit "id:") (strip l)) eqn:Hid.
  - apply startswith_spec in Hid as [rest Hrest].
    rewrite Hrest, after_colon_id. intros Hr.
    destruct (IH _ _ Hr) as [(r0 & Hr0 & E) | (l0 & rest0 & ? & ? & ?)].
    + apply elem_of_app in Hr0 as [Hr0 | Hr0].
      * left. by exists r0.
      * apply list_elem_of_singleton in Hr0 as ->.
        right. exists l, rest. split; [by left | done].
    + right. exists l0, rest0. split; [by right | done].
  - destruct (startswith (lit "name:") (strip l)); [|by apply Hskip].
    destruct (after_colon (strip l)) as [v|]; [|intros Hr; left; by exists r].
    destruct current as [i|]; [|by apply Hskip].
    apply Hskip. intros r0 Hr0.
    by apply elem_of_alter_id in Hr0.
Qed.

(** C7, as the code has it: the identifier of every parsed record is the
    text that follows [id:] on one line of the input, stripped of its
    surrounding whitespace; it is empty exactly when that text is
    blank. *)
Theorem parsed_id_is_stripped_field (out : str) r :
  r ∈ parse_catalog out →
  ∃ l rest, l ∈ splitlines out ∧ strip l = lit "id:" ++ rest
            ∧ id r = strip rest ∧ (id r = [] ↔ blank rest).
Proof.
  intros Hr. apply parse_lines_id_origin in Hr
    as [(r0 & Hr0 & _) | (l & rest & Hl & Hs & E)].
  - by apply elem_of_nil in Hr0.
  - exists l, rest. repeat split; try done.
    + intros H. apply strip_nil. by rewrite <- E.
    + intros H. rewrite E. by apply strip_nil.
Qed.

(** C7, as stated, fails: the one-line text [id:] is parsed to a record
    whose identifier is the empty string. *)
Lemma parsed_id_can_be_empty :
  parse_catalog (lit "id:") = [mkDevice [] None]
  ∧ ¬ (∀ (out : str) r, r ∈ parse_catalog out → id r ≠ []).
Proof.
  split; [reflexivity|]. intros H.
  apply (H (lit "id:") (mkDevice [] None)); [|done].
  change (parse_catalog (lit "id:")) with [mkDevice [] None]. by left.
Qed.

Lemma parsed_id_is_stripped_field_witness :
  ∃ l rest, l ∈ splitlines (lit "  id: 23 ") ∧ strip l = lit "id:" ++ rest
    ∧ id (mkDevice (lit "23") None) = strip rest
    ∧ (id (mkDevice (lit "23") None) = [] ↔ blank rest).
Proof.
  apply (parsed_id_is_stripped_field (lit "  id: 23 ") (mkDevice (lit "23") None)).
  vm_compute. by left.
Defined.
End IdentifierTheorems.

(** ** Profile selection *)

Section SelectorFacts.
Implicit Types (devices before after : list DeviceRecord) (d e : DeviceRecord).

Lemma ci_contains_spec (kw s : str) :
  contains (lower kw) (lower s) = true ↔ ci_contains kw s.
Proof. apply contains_spec. Qed.

Lemma samsung_test_spec d :
  let name := lower (get_name d) in
  contains (lit "galaxy") name || contains (lit "samsung") name
    || contains (lit "large") name || contains (lit "xlarge") name = true
  ↔ samsung_match d.
Proof.
  cbn zeta. rewrite !orb_true_iff.
  change (lit "galaxy") with (lower (lit "galaxy")).
  change (lit "samsung") with (lower (lit "samsung")).
  change (lit "large") with (lower (lit "large")).
  change (lit "xlarge") with (lower (lit "xlarge")).
  rewrite !ci_contains_spec. unfold samsung_match, samsung_keywords. split.
  - intros [[[H|H]|H]|H]; eexists; (split; [|exact H]); set_solver.
  - intros (kw & Hkw & H).
    repeat (apply elem_of_cons in Hkw as [->|Hkw]; [tauto|]).
    by apply elem_of_nil in Hkw.
Qed.

Lemma fallback_hit_spec (fallback : str) d :
  fallback_hit fallback d = true ↔ fallback_match fallback d.
Proof.
  unfold fallback_hit, fallback_match.
  by rewrite orb_true_iff, !ci_contains_spec.
Qed.

Lemma pixel_test_spec d :
  contains (lit "pixel") (lower (get_name d))
    || contains (lit "pixel_6") (lower (id d))
    || contains (lit "pixel_3") (lower (id d)) = true
  ↔ pixel_match d.
Proof.
  rewrite !orb_true_iff.
  change (lit "pixel") with (lower (lit "pixel")).
  change (lit "pixel_6") with (lower (lit "pixel_6")).
  change (lit "pixel_3") with (lower (lit "pixel_3")).
  rewrite !ci_contains_spec. unfold pixel_match. tauto.
Qed.

Lemma samsung_scan_first before d after :
  (∀ e, e ∈ before → ¬ samsung_match e) → samsung_match d →
  samsung_scan (before ++ d :: after) = Some (id d).
Proof.
  intros Hno Hd. induction before as [|e before IH]; cbn [samsung_scan app].
  - apply samsung_test_spec in Hd. cbn zeta in Hd. by rewrite Hd.
  - destruct (_ || _) eqn:E.
    + apply samsung_test_spec in E. destruct (Hno e); [by left | done].
    + apply IH. intros e' He'. apply Hno. by right.
Qed.

Lemma samsung_scan_none devices :
  (∀ e, e ∈ devices → ¬ samsung_match e) → samsung_scan devices = None.
Proof.
  intros Hno. induction devices as [|e devices IH]; cbn [samsung_scan]; [done|].
  destruct (_ || _) eqn:E.
  - apply samsung_test_spec in E. destruct (Hno e); [by left | done].
  - apply IH. intros e' He'. apply Hno. by right.
Qed.

Lemma fallback_devices_first (fallback : str) before d after preferred :
  (∀ e, e ∈ before → ¬ fallback_match fallback e) →
  fallback_match fallback d →
  fallback_devices fallback (before ++ d :: after) preferred = Some (id d).
Proof.
  intros Hno Hd. induction before as [|e before IH]; cbn [fallback_devices app].
  - apply fallback_hit_spec in Hd. by rewrite Hd.
  - destruct (fallback_hit fallback e) eqn:E.
    + apply fallback_hit_spec in E. destruct (Hno e); [by left | done].
    + apply IH. intros e' He'. apply Hno. by right.
Qed.

Lemma fallback_devices_none (fallback : str) devices preferred :
  (∀ e, e ∈ devices → ¬ fallback_match fallback e) →
  fallback_devices fallback devices preferred = preferred.
Proof.
  intros Hno. induction devices as [|e devices IH]; cbn [fallback_devices]; [done|].
  destruct (fallback_hit fallback e) eqn:E.
  - apply fallback_hit_spec in E. destruct (Hno e); [by left | done].
  - apply IH. intros e' He'. apply Hno. by right.
Qed.

Lemma fallback_scan_none (fbs : list str) devices :
  (∀ g e, g ∈ fbs → e ∈ devices → ¬ fallback_match g e) →
  fallback_scan fbs devices None = None.
Proof.
  intros Hno. induction fbs as [|g fbs IH]; cbn [fallback_scan]; [done|].
  rewrite fallback_devices_none by (intros e He; apply Hno; [by left | done]).
  cbn. apply IH. intros g' e Hg He. apply Hno; [by right | done].
Qed.

Lemma fallback_scan_priority (pre post : list str) (f : str) before d after :
  (∀ g e, g ∈ pre → e ∈ before ++ d :: after → ¬ fallback_match g e) →
  (∀ e, e ∈ before → ¬ fallback_match f e) →
  fallback_match f d → id d ≠ [] →
  fallback_scan (pre ++ f :: post) (before ++ d :: after) None = Some (id d).
Proof.
  intros Hpre Hbefore Hd Hid.
  induction pre as [|g pre IH]; cbn [fallback_scan app].
  - rewrite fallback_devices_first by done. cbn.
    by destruct (id d).
  - rewrite fallback_devices_none by (intros e He; apply Hpre; [by left | done]).
    cbn. apply IH. intros g' e Hg He. apply Hpre; [by right | done].
Qed.

Lemma samsung_profile_no_keyword devices :
  (∀ e, e ∈ devices → ¬ samsung_match e) →
  samsung_profile devices = fallback_scan fallbacks devices None.
Proof.
  intros Hno. unfold samsung_profile. by rewrite samsung_scan_none.
Qed.

Lemma pixel_profile_first before d after :
  (∀ e, e ∈ before → ¬ pixel_match e) → pixel_match d →
  pixel_profile (before ++ d :: after) = Some (id d).
Proof.
  intros Hno Hd. induction before as [|e before IH]; cbn [pixel_profile app].
  - apply pixel_test_spec in Hd. cbn zeta. by rewrite Hd.
  - cbn zeta. destruct (_ || _) eqn:E.
    + apply pixel_test_spec in E. destruct (Hno e); [by left | done].
    + apply IH. intros e' He'. apply Hno. by right.
Qed.
End SelectorFacts.

(** ** Running the operations *)

Arguments lit : simpl never.

Section TraceFacts.
Implicit Types (t : list event) (w : world).

Lemma spawned_app t1 t2 : spawned (t1 ++ t2) = spawned t1 ++ spawned t2.
Proof. apply omap_app. Qed.

Lemma printed_app t1 t2 : printed_lines (t1 ++ t2) = printed_lines t1 ++ printed_lines t2.
Proof. apply omap_app. Qed.
End TraceFacts.

Ltac run_monad :=
  unfold try_except, run, subprocess_run, print, emit, input, or_raise,
    mbind, M_bind, mret, M_ret;
  cbn [children stdin trace exit_ok stdout fst snd andb negb
       is_CalledProcessError is_Exception].

Ltac trace_norm :=
  cbn [trace children stdin];
  rewrite ?spawned_app, ?printed_app; cbn [spawned printed_lines omap];
  rewrite <- ?app_assoc, ?app_nil_r; cbn [app].

Section ProvisionerFacts.
Implicit Types (w : world) (name api : str).

Lemma create_avd_runs avdmanager_path sdkmanager_path name device_profile api w :
  ∃ w',
    create_avd avdmanager_path sdkmanager_path name device_profile api w
      = (Return (), w')
    ∧ children w' = children w ∧ stdin w' = stdin w
    ∧ spawned (trace w')
      = spawned (trace w) ++ install_cmds sdkmanager_path api
        ++ creation_cmds avdmanager_path name device_profile api.
Proof.
  unfold create_avd, ensure_system_image, install_cmds, creation_cmds.
  destruct (truthy sdkmanager_path); destruct (truthy avdmanager_path);
    run_monad.
  all: repeat match goal with
       | |- context [exit_ok ?c] => destruct (exit_ok c); run_monad
       end.
  all: eexists; split; [reflexivity|]; by trace_norm.
Qed.
Lemma create_avd_trace avdmanager_path sdkmanager_path name device_profile api w :
  let pkg := system_image_pkg api DEFAULT_TAG DEFAULT_ABI in
  create_avd avdmanager_path sdkmanager_path name device_profile api w
  = (Return (),
     mkWorld (children w) (stdin w)
       (trace w
        ++ install_events sdkmanager_path api
             (exit_ok (children w [default [] sdkmanager_path; pkg]))
        ++ creation_events avdmanager_path name device_profile api
             (exit_ok (children w
                (create_avd_cmd (default [] avdmanager_path) name pkg
                   device_profile))))).
Proof.
  intros pkg. subst pkg.
  unfold create_avd, ensure_system_image, install_events, creation_events.
  destruct (truthy sdkmanager_path); destruct (truthy avdmanager_path);
    run_monad.
  all: repeat match goal with
       | |- context [exit_ok ?c] => destruct (exit_ok c); run_monad
       end.
  all: by rewrite <- ?app_assoc.
Qed.

Lemma spawned_install_events sdkmanager_path api ok :
  spawned (install_events sdkmanager_path api ok)
  = install_cmds sdkmanager_path api.
Proof.
  unfold install_events, install_cmds.
  destruct (truthy sdkmanager_path); [|done]. by destruct ok.
Qed.

Lemma spawned_creation_events avdmanager_path name device_profile api ok :
  spawned (creation_events avdmanager_path name device_profile api ok)
  = creation_cmds avdmanager_path name device_profile api.
Proof.
  unfold creation_events, creation_cmds.
  by destruct (truthy avdmanager_path).
Qed.
End ProvisionerFacts.

Section ProvisionerTheorems.
Implicit Types (w : world) (name api : str).

(** C9, as the code has it: the provisioner performs its steps in this
    order.  When [sdkmanager] was located it first runs the installation
    of [system-images;android-{api};{tag};{abi}]; when it was not, it
    prints that [sdkmanager] was not found and installs nothing.  A
    failure of the installation, that is a non-zero exit status, is
    logged by a message and the text of the exception, and is not fatal:
    the creation step follows whatever that exit status.  When
    [avdmanager] was located the creation command is then run; when it
    was not, the provisioner prints that [avdmanager] was not found and
    attempts no creation.  The creation command always holds [--force],
    and ends with [--device <profile>] exactly when a non-empty profile
    is given.  The premises say of the two commands that, where they are
    started, they run to an exit status. *)
Theorem create_avd_two_steps avdmanager_path sdkmanager_path name
    device_profile api w (installed created : bool) :
  let pkg := system_image_pkg api DEFAULT_TAG DEFAULT_ABI in
  let install := [default [] sdkmanager_path; pkg] in
  let create := create_avd_cmd (default [] avdmanager_path) name pkg
                  device_profile in
  let result := create_avd avdmanager_path sdkmanager_path name
                  device_profile api w in
  exits_with w install installed →
  exits_with w create created →
  fst result = Return ()
  ∧ trace (snd result)
    = trace w
      ++ install_events sdkmanager_path api installed
      ++ creation_events avdmanager_path name device_profile api created
  ∧ spawned (trace (snd result))
    = spawned (trace w) ++ install_cmds sdkmanager_path api
      ++ creation_cmds avdmanager_path name device_profile api
  ∧ (∀ path : str,
       create_avd_cmd path name pkg device_profile
       = [path; lit "create"; lit "avd"; lit "--name"; name;
          lit "--package"; pkg; lit "--force"]
         ++ (if truthy device_profile
             then [lit "--device"; default [] device_profile] else [])).
Proof.
  intros pkg install create result Hi Hc. unfold exits_with in Hi, Hc.
  destruct (create_avd_runs avdmanager_path sdkmanager_path name
              device_profile api w) as (w1 & Hrun & _ & _ & Hsp).
  split; [by subst result; rewrite Hrun|].
  split; [|split].
  - subst result install create pkg installed created.
    unfold create_avd, ensure_system_image, install_events, creation_events.
    destruct (truthy sdkmanager_path); destruct (truthy avdmanager_path);
      run_monad.
    all: repeat match goal with
         | |- context [exit_ok ?c] => destruct (exit_ok c); run_monad
         end.
    all: cbn [trace snd]; by rewrite <- ?app_assoc.
  - subst result. by rewrite Hrun.
  - intros path. unfold create_avd_cmd.
    destruct (truthy device_profile); [done|]. by rewrite app_nil_r.
Qed.

(** C9, as stated, fails: without a located [avdmanager] the failed
    installation is the only command, and no creation is attempted; and
    without a located [sdkmanager] the creation is the only command, no
    installation being attempted before it. *)
Lemma create_avd_without_avdmanager :
  let run :=
    create_avd None (Some (lit "sdkmanager")) (lit "Pixel_Device_AVD") None
      DEFAULT_API_LEVEL (failing_world []) in
  let bare :=
    create_avd (Some (lit "avdmanager")) None (lit "Pixel_Device_AVD") None
      DEFAULT_API_LEVEL (failing_world []) in
  fst run = Return ()
  ∧ spawned (trace (snd run))
    = [[lit "sdkmanager"; lit "system-images;android-31;google_apis;x86_64"]]
  ∧ spawned (trace (snd bare))
    = [[lit "avdmanager"; lit "create"; lit "avd"; lit "--name";
        lit "Pixel_Device_AVD"; lit "--package";
        lit "system-images;android-31;google_apis;x86_64"; lit "--force"]].
Proof. repeat split; reflexivity. Qed.

Lemma create_avd_two_steps_witness :
  let result := create_avd None (Some (lit "sdkmanager"))
                  (lit "Pixel_Device_AVD") (Some (lit "23"))
                  DEFAULT_API_LEVEL (failing_world []) in
  fst result = Return ()
  ∧ trace (snd result)
    = [Printed (lit "Ensuring system image package is installed: system-images;android-31;google_apis;x86_64");
       Printed (lit "+ sdkmanager system-images;android-31;google_apis;x86_64");
       Spawn [lit "sdkmanager"; lit "system-images;android-31;google_apis;x86_64"];
       Printed (lit "sdkmanager failed. You may need to run the command manually with correct SDK tools installed.");
       PrintExc (CalledProcessError
                   [lit "sdkmanager"; lit "system-images;android-31;google_apis;x86_64"]);
       Printed (lit "avdmanager not found. Install Android command-line tools and ensure avdmanager is on PATH.")].
Proof.
  cbn zeta.
  destruct (create_avd_two_steps None (Some (lit "sdkmanager"))
              (lit "Pixel_Device_AVD") (Some (lit "23"))
              DEFAULT_API_LEVEL (failing_world []) false false
              eq_refl eq_refl) as (Hret & Htr & _).
  split; [exact Hret|]. rewrite Htr. reflexivity.
Defined.
End ProvisionerTheorems.

Section SelectorTheorems.
Implicit Types (w : world) (devices before after : list DeviceRecord).
Implicit Types (found_tools : gmap str str).

Lemma list_avd_devices_runs (path : str) w :
  truthy_str path = true →
  list_avd_devices (Some path) w
  = (Return (if exit_ok (children w [path; lit "list"; lit "device"])
             then parse_catalog
                    (stdout (children w [path; lit "list"; lit "device"]))
             else []),
     mkWorld (children w) (stdin w)
       (trace w ++ [Spawn [path; lit "list"; lit "device"]])).
Proof.
  intros Hp. unfold list_avd_devices. cbn [truthy]. rewrite Hp.
  change (default [] (Some path)) with path.
  run_monad. by destruct (exit_ok _).
Qed.

Lemma list_avd_devices_returns avdmanager_path w :
  ∃ devices w',
    list_avd_devices avdmanager_path w = (Return devices, w')
    ∧ children w' = children w ∧ stdin w' = stdin w.
Proof.
  destruct (truthy avdmanager_path) eqn:E.
  - destruct avdmanager_path as [path|]; [|done].
    rewrite list_avd_devices_runs by done. by eexists _, _.
  - unfold list_avd_devices. rewrite E. by eexists _, _.
Qed.

(** C5: when no record of the catalog matches a Samsung keyword or a
    fallback string, the Samsung selector yields no profile, and the
    operation then runs the installation and a creation command that
    stops at [--force]: no [--device] argument is passed. *)
Theorem samsung_without_match_passes_no_device found_tools w devices w1 :
  list_avd_devices (found_tools !! lit "avdmanager") w = (Return devices, w1) →
  (∀ e, e ∈ devices →
     ¬ samsung_match e ∧ ∀ fb, fb ∈ fallbacks → ¬ fallback_match fb e) →
  samsung_profile devices = None
  ∧ ∃ w2,
      create_samsung_device found_tools w = (Return (), w2)
      ∧ spawned (trace w2)
        = spawned (trace w1)
          ++ install_cmds (found_tools !! lit "sdkmanager") DEFAULT_API_LEVEL
          ++ (if truthy (found_tools !! lit "avdmanager")
              then [[default [] (found_tools !! lit "avdmanager");
                     lit "create"; lit "avd"; lit "--name";
                     lit "Samsung_Device_AVD"; lit "--package";
                     lit "system-images;android-31;google_apis;x86_64";
                     lit "--force"]]
              else []).
Proof.
  intros Hlist Hno.
  assert (samsung_profile devices = None) as Hprof.
  { rewrite samsung_profile_no_keyword by (intros e He; by apply Hno).
    apply fallback_scan_none. intros g e Hg He. by apply Hno. }
  split; [done|].
  unfold create_samsung_device. unfold mbind at 1, M_bind at 1.
  rewrite Hlist, Hprof.
  destruct (create_avd_runs (found_tools !! lit "avdmanager")
              (found_tools !! lit "sdkmanager") (lit "Samsung_Device_AVD")
              None DEFAULT_API_LEVEL w1) as (w2 & Hrun & _ & _ & Hsp).
  unfold mbind, M_bind. rewrite Hrun. run_monad.
  eexists. split; [reflexivity|]. trace_norm. rewrite Hsp.
  unfold creation_cmds. by destruct (truthy _).
Qed.

(** Closes [¬ samsung_match d] and [¬ fallback_match f d] on concrete
    records by running the test of the code. *)
Ltac refute_match :=
  let H := fresh in
  intros H;
  first [apply samsung_test_spec in H | apply fallback_hit_spec in H
        | apply pixel_test_spec in H];
  vm_compute in H; discriminate H.

Ltac each_elem He :=
  repeat (apply elem_of_cons in He as [->|He]); [..|by apply elem_of_nil in He].

(** C1, as the code has it: when no record matches a Samsung keyword,
    the fallback strings are tried in their listed order, each against
    the whole catalog; for the first fallback string that some record
    matches, the selector returns the identifier of the first record, in
    catalog order, matching that string (the identifier being
    non-empty). *)
Theorem samsung_fallback_by_priority (pre post : list str) (f : str)
    before d after :
  fallbacks = pre ++ f :: post →
  (∀ e, e ∈ before ++ d :: after → ¬ samsung_match e) →
  (∀ g e, g ∈ pre → e ∈ before ++ d :: after → ¬ fallback_match g e) →
  (∀ e, e ∈ before → ¬ fallback_match f e) →
  fallback_match f d → id d ≠ [] →
  samsung_profile (before ++ d :: after) = Some (id d).
Proof.
  intros Hfb Hno Hpre Hbefore Hd Hid.
  rewrite samsung_profile_no_keyword, Hfb by done.
  by apply fallback_scan_priority.
Qed.

(** C1, as stated, fails: in a catalog listing [pixel_5] before
    [pixel_6], the first record matching a fallback string is
    [pixel_5], and the selector returns [pixel_6]. *)
Lemma samsung_fallback_not_in_catalog_order :
  let devices := parse_catalog pixel_5_then_6_text in
  devices = [mkDevice (lit "pixel_5") (Some (lit "A"));
             mkDevice (lit "pixel_6") (Some (lit "B"))]
  ∧ (∀ e, e ∈ devices → ¬ samsung_match e)
  ∧ fallback_match (lit "pixel_5") (mkDevice (lit "pixel_5") (Some (lit "A")))
  ∧ samsung_profile devices = Some (lit "pixel_6").
Proof.
  assert (parse_catalog pixel_5_then_6_text
          = [mkDevice (lit "pixel_5") (Some (lit "A"));
             mkDevice (lit "pixel_6") (Some (lit "B"))]) as E
    by (vm_compute; reflexivity).
  cbn zeta. rewrite E. split; [done|]. split; [|split].
  - intros e He. each_elem He; refute_match.
  - apply fallback_hit_spec. vm_compute. reflexivity.
  - vm_compute. reflexivity.
Qed.

Lemma samsung_fallback_by_priority_witness :
  samsung_profile ([mkDevice (lit "pixel_5") (Some (lit "A"))]
                   ++ mkDevice (lit "pixel_6") (Some (lit "B")) :: [])
  = Some (lit "pixel_6").
Proof.
  apply (samsung_fallback_by_priority [] [lit "pixel_5"; lit "Nexus 6"; lit "Nexus 5X"]
           (lit "pixel_6")).
  - reflexivity.
  - intros e He. each_elem He; refute_match.
  - intros g e Hg. by apply elem_of_nil in Hg.
  - intros e He. each_elem He; refute_match.
  - apply fallback_hit_spec. vm_compute. reflexivity.
  - discriminate.
Defined.

(** C3, as the code has it: when some record's name contains a Samsung
    keyword in any letter case, the selector returns the identifier of
    the first such record in catalog order, whatever follows it in the
    catalog, provided that identifier is not empty. *)
Theorem samsung_prefers_first_keyword_match before d after :
  (∀ e, e ∈ before → ¬ samsung_match e) →
  samsung_match d → id d ≠ [] →
  samsung_profile (before ++ d :: after) = Some (id d).
Proof.
  intros Hno Hd Hid. unfold samsung_profile.
  rewrite samsung_scan_first by done. cbn. by destruct (id d).
Qed.

(** C3, as stated, fails: the Galaxy record comes first, its identifier
    is empty, and the selector returns the identifier of the later
    record. *)
Lemma samsung_skips_match_with_empty_id :
  let devices := parse_catalog galaxy_without_id_text in
  devices = [mkDevice [] (Some (lit "Galaxy"));
             mkDevice (lit "pixel_6") (Some (lit "x"))]
  ∧ samsung_match (mkDevice [] (Some (lit "Galaxy")))
  ∧ ¬ samsung_match (mkDevice (lit "pixel_6") (Some (lit "x")))
  ∧ samsung_profile devices = Some (lit "pixel_6").
Proof.
  assert (parse_catalog galaxy_without_id_text
          = [mkDevice [] (Some (lit "Galaxy"));
             mkDevice (lit "pixel_6") (Some (lit "x"))]) as E
    by (vm_compute; reflexivity).
  cbn zeta. rewrite E. split; [done|]. split; [|split].
  - apply samsung_test_spec. vm_compute. reflexivity.
  - refute_match.
  - vm_compute. reflexivity.
Qed.

Lemma samsung_prefers_first_keyword_match_witness :
  samsung_profile ([mkDevice (lit "pixel_6") (Some (lit "Pixel 6"))]
                   ++ mkDevice (lit "7") (Some (lit "GALAXY Nexus"))
                   :: [mkDevice (lit "pixel_5") None])
  = Some (lit "7").
Proof.
  apply (samsung_prefers_first_keyword_match
           [mkDevice (lit "pixel_6") (Some (lit "Pixel 6"))]
           (mkDevice (lit "7") (Some (lit "GALAXY Nexus")))).
  - intros e He. each_elem He; refute_match.
  - apply samsung_test_spec. vm_compute. reflexivity.
  - discriminate.
Defined.

Lemma samsung_without_match_passes_no_device_witness :
  samsung_profile [mkDevice (lit "23") (Some (lit "Wear OS"))] = None.
Proof.
  refine (proj1 (samsung_without_match_passes_no_device
                   {[ lit "avdmanager" := lit "avdmanager" ]}
                   (listing_world (lit "id: 23" ++ [LF] ++ lit "name: Wear OS") [])
                   [mkDevice (lit "23") (Some (lit "Wear OS"))]
                   (mkWorld (children (listing_world
                               (lit "id: 23" ++ [LF] ++ lit "name: Wear OS") []))
                      [] [Spawn [lit "avdmanager"; lit "list"; lit "device"]])
                   _ _)).
  - vm_compute. reflexivity.
  - intros e He. each_elem He. split; [refute_match|].
    intros fb Hfb. unfold fallbacks in Hfb. each_elem Hfb; refute_match.
Defined.

(** C4: the Pixel selector returns the identifier of the first record,
    in catalog order, whose name contains "pixel" or whose identifier
    contains "pixel_6" or "pixel_3", letter case left aside.  For the
    catalog text [id: 23] / [name: "pixel_5"] the parser yields one
    record, the selector returns [23], and the creation command run by
    the operation ends with [--device 23]. *)
Theorem pixel_selects_first_match :
  (∀ before d after,
     (∀ e, e ∈ before → ¬ pixel_match e) → pixel_match d →
     pixel_profile (before ++ d :: after) = Some (id d))
  ∧ parse_catalog pixel_5_text
    = [mkDevice (lit "23") (Some ([dquote] ++ lit "pixel_5" ++ [dquote]))]
  ∧ pixel_profile (parse_catalog pixel_5_text) = Some (lit "23")
  ∧ (∀ found_tools w (path : str),
       found_tools !! lit "avdmanager" = Some path →
       truthy_str path = true →
       children w [path; lit "list"; lit "device"]
         = mkCompleted true pixel_5_text →
       ∃ w',
         create_pixel_device found_tools w = (Return (), w')
         ∧ spawned (trace w')
           = spawned (trace w)
             ++ [[path; lit "list"; lit "device"]]
             ++ install_cmds (found_tools !! lit "sdkmanager") DEFAULT_API_LEVEL
             ++ [[path; lit "create"; lit "avd"; lit "--name";
                  lit "Pixel_Device_AVD"; lit "--package";
                  lit "system-images;android-31;google_apis;x86_64";
                  lit "--force"; lit "--device"; lit "23"]]).
Proof.
  split; [exact pixel_profile_first|].
  assert (parse_catalog pixel_5_text
          = [mkDevice (lit "23") (Some ([dquote] ++ lit "pixel_5" ++ [dquote]))])
    as E by (vm_compute; reflexivity).
  split; [done|]. split; [rewrite E; vm_compute; reflexivity|].
  intros found_tools w path Hpath Htruthy Hchild.
  unfold create_pixel_device. rewrite Hpath.
  unfold mbind at 1, M_bind at 1.
  rewrite list_avd_devices_runs, Hchild by done. cbn [exit_ok stdout].
  rewrite E.
  assert (pixel_profile
            [mkDevice (lit "23") (Some ([dquote] ++ lit "pixel_5" ++ [dquote]))]
          = Some (lit "23")) as -> by (vm_compute; reflexivity).
  set (w0 := mkWorld _ _ _).
  destruct (create_avd_runs (Some path) (found_tools !! lit "sdkmanager")
              (lit "Pixel_Device_AVD") (Some (lit "23")) DEFAULT_API_LEVEL w0)
    as (w2 & Hrun & _ & _ & Hsp).
  unfold mbind, M_bind. rewrite Hrun. run_monad.
  eexists. split; [reflexivity|]. trace_norm. rewrite Hsp.
  subst w0. trace_norm.
  unfold creation_cmds. cbn [truthy]. rewrite Htruthy. reflexivity.
Qed.

Lemma pixel_selects_first_match_witness :
  pixel_profile ([mkDevice (lit "7") (Some (lit "Nexus 7"))]
                 ++ mkDevice (lit "23") (Some (lit "Pixel 5"))
                 :: [mkDevice (lit "pixel_6") None])
  = Some (lit "23")
  ∧ ∃ w',
      create_pixel_device {[ lit "avdmanager" := lit "avdmanager" ]}
        (listing_world pixel_5_text [])
      = (Return (), w')
      ∧ spawned (trace w')
        = [[lit "avdmanager"; lit "list"; lit "device"];
           [lit "avdmanager"; lit "create"; lit "avd"; lit "--name";
            lit "Pixel_Device_AVD"; lit "--package";
            lit "system-images;android-31;google_apis;x86_64";
            lit "--force"; lit "--device"; lit "23"]].
Proof.
  split.
  - apply (proj1 pixel_selects_first_match
             [mkDevice (lit "7") (Some (lit "Nexus 7"))]
             (mkDevice (lit "23") (Some (lit "Pixel 5")))).
    + intros e He. each_elem He; refute_match.
    + apply pixel_test_spec. vm_compute. reflexivity.
  - destruct (proj2 (proj2 (proj2 pixel_selects_first_match))
                {[ lit "avdmanager" := lit "avdmanager" ]}
                (listing_world pixel_5_text []) (lit "avdmanager"))
      as (w' & Hrun & Hsp); [vm_compute; reflexivity..|].
    exists w'. split; [exact Hrun|]. rewrite Hsp. vm_compute. reflexivity.
Defined.
End SelectorTheorems.

(** ** The connected-device chooser and the dump *)

Section ChooserFacts.
Implicit Types (w : world) (devices : list (str * str)) (path line : str).

Lemma print_devices_runs idx devices w :
  print_devices idx devices w
  = (Return (), mkWorld (children w) (stdin w)
                  (trace w ++ device_lines idx devices)).
Proof.
  revert idx w. induction devices as [|[serial state] devices IH];
    intros idx w; cbn [print_devices device_lines].
  - run_monad. rewrite app_nil_r. by destruct w.
  - run_monad. rewrite IH. cbn [children stdin trace].
    by rewrite <- app_assoc.
Qed.

Lemma py_index_minus_one {A} (l : list A) : py_index l (-1) = last l.
Proof.
  unfold py_index. cbn [Z.leb Z.compare].
  destruct l as [|a l]; [done|].
  rewrite last_lookup.
  destruct (Z.leb_spec (- Z.of_nat (length (a :: l))) (-1)) as [_|H];
    [|cbn [length] in H; lia].
  f_equal. cbn [length]. lia.
Qed.

(** The chooser up to its answer: the device list is shown, one line is
    read, and the number on it is used as a Python index. *)
Lemma choose_connected_device_runs path w devices line rest :
  truthy_str path = true →
  exit_ok (children w [path; lit "devices"]) = true →
  connected_devices (stdout (children w [path; lit "devices"])) = devices →
  devices ≠ [] →
  stdin w = line :: rest →
  let choice := if negb (truthy_str (strip line)) then lit "1" else strip line in
  let shown := trace w ++ chooser_prelude path devices in
  choose_connected_device (Some path) w
  = match py_int choice ≫= λ n, py_index devices (n - 1) with
    | Some d => (Return (Some (fst d)), mkWorld (children w) rest shown)
    | None => (Return None,
               mkWorld (children w) rest
                 (shown ++ [Printed (lit "Invalid choice.")]))
    end.
Proof.
  intros Hp Hok Hdev Hne Hin choice shown.
  unfold choose_connected_device. cbn [truthy]. rewrite Hp.
  change (default [] (Some path)) with path.
  run_monad. rewrite Hok. run_monad. rewrite Hdev.
  destruct devices as [|d0 devices0]; [done|]. clear Hne.
  set (devices := d0 :: devices0) in *.
  rewrite print_devices_runs. run_monad. rewrite Hin. fold choice.
  assert (((trace w ++ [Spawn [path; lit "devices"]])
           ++ [Printed (lit "Connected devices/emulators:")])
          ++ device_lines 1 devices
          ++ [Prompt (lit "Pick device number (default 1): ")] = shown) as E.
  { unfold shown, chooser_prelude. by rewrite <- !app_assoc. }
  rewrite <- !app_assoc in E. rewrite <- !app_assoc. cbn [app] in E |- *.
  rewrite E.
  destruct (py_int choice) as [n|]; cbn [mbind option_bind]; run_monad; [|done].
  by destruct (py_index devices (n - 1)).
Qed.
End ChooserFacts.

Section ChooserTheorems.
Implicit Types (w : world) (devices : list (str * str)) (path line : str).
Implicit Types (found_tools : gmap str str).

(** C8: with exactly one device listed and the answer [2], the chooser
    raises nothing: it prints [Invalid choice.] as its last action and
    returns no serial; the dump operation then returns at once, having
    run no command besides [adb devices]. *)
Theorem choose_two_of_one_is_reported path (serial state : str) w line rest :
  truthy_str path = true →
  exit_ok (children w [path; lit "devices"]) = true →
  connected_devices (stdout (children w [path; lit "devices"]))
    = [(serial, state)] →
  stdin w = line :: rest → strip line = lit "2" →
  ∃ w',
    choose_connected_device (Some path) w = (Return None, w')
    ∧ last (trace w') = Some (Printed (lit "Invalid choice."))
    ∧ spawned (trace w') = spawned (trace w) ++ [[path; lit "devices"]]
    ∧ stdin w' = rest
    ∧ ∀ found_tools,
        found_tools !! lit "adb" = Some path →
        create_system_image_dump found_tools w = (Return (), w').
Proof.
  intros Hp Hok Hdev Hin Hline.
  pose proof (choose_connected_device_runs path w _ line rest Hp Hok Hdev)
    as Hrun.
  cbn zeta in Hrun. rewrite Hline in Hrun.
  change (py_int _ ≫= _) with (@None (str * str)) in Hrun.
  specialize (Hrun ltac:(done) Hin).
  eexists. split; [exact Hrun|]. cbn [trace stdin].
  split; [by rewrite last_snoc|]. split.
  - unfold chooser_prelude. cbn [device_lines]. by trace_norm.
  - split; [done|]. intros found_tools Hadb.
    unfold create_system_image_dump. rewrite Hadb. cbn [truthy]. rewrite Hp.
    cbn [negb]. unfold mbind at 1, M_bind at 1. by rewrite Hrun.
Qed.

Lemma choose_two_of_one_is_reported_witness :
  ∃ w',
    choose_connected_device (Some (lit "adb"))
      (listing_world one_device_text [lit "2"])
    = (Return None, w')
    ∧ last (trace w') = Some (Printed (lit "Invalid choice."))
    ∧ create_system_image_dump {[ lit "adb" := lit "adb" ]}
        (listing_world one_device_text [lit "2"])
      = (Return (), w').
Proof.
  destruct (choose_two_of_one_is_reported (lit "adb") (lit "emulator-5554")
              (lit "device") (listing_world one_device_text [lit "2"])
              (lit "2") [])
    as (w' & Hrun & Hlast & _ & _ & Hdump); [vm_compute; reflexivity..|].
  exists w'. split; [exact Hrun|]. split; [exact Hlast|].
  apply Hdump. vm_compute. reflexivity.
Defined.

(** C10: the answer [0] is not refused.  The index becomes -1 and the
    chooser returns the serial of the last device listed; with one
    device listed, that is the serial of this device. *)
Theorem choose_zero_takes_last_device path w devices line rest :
  truthy_str path = true →
  exit_ok (children w [path; lit "devices"]) = true →
  connected_devices (stdout (children w [path; lit "devices"])) = devices →
  devices ≠ [] →
  stdin w = line :: rest → strip line = lit "0" →
  ∃ w',
    choose_connected_device (Some path) w
    = (Return (fst <$> last devices), w')
    ∧ is_Some (last devices)
    ∧ (∀ serial state, devices = [(serial, state)] →
         choose_connected_device (Some path) w = (Return (Some serial), w')).
Proof.
  intros Hp Hok Hdev Hne Hin Hline.
  pose proof (choose_connected_device_runs path w _ line rest Hp Hok Hdev
                Hne Hin) as Hrun.
  cbn zeta in Hrun. rewrite Hline in Hrun.
  change (py_int _ ≫= _) with (py_index devices (0 - 1)) in Hrun.
  change (0 - 1) with (-1) in Hrun. rewrite py_index_minus_one in Hrun.
  destruct (last devices) as [d|] eqn:Hlast.
  - eexists. split; [exact Hrun|]. split; [by eexists|].
    intros serial state ->. by injection Hlast as <-.
  - apply last_None in Hlast. done.
Qed.

Lemma choose_zero_takes_last_device_witness :
  ∃ w',
    choose_connected_device (Some (lit "adb"))
      (listing_world one_device_text [lit "0"])
    = (Return (Some (lit "emulator-5554")), w').
Proof.
  destruct (choose_zero_takes_last_device (lit "adb")
              (listing_world one_device_text [lit "0"])
              [(lit "emulator-5554", lit "device")] (lit "0") [])
    as (w' & _ & _ & Hone); [vm_compute; reflexivity || discriminate ..|].
  exists w'. by apply (Hone (lit "emulator-5554") (lit "device")).
Defined.

(** C6 at the dump-method prompt: after the device was chosen with [1],
    the answer [3] is not reported as invalid; the recursive pull of
    /system is run, as for the answer [2]. *)
Theorem dump_method_three_runs_the_pull :
  let found_tools : gmap str str := {[ lit "adb" := lit "adb" ]} in
  let run3 := create_system_image_dump found_tools
                (listing_world one_device_text [lit "1"; lit "3"]) in
  let run2 := create_system_image_dump found_tools
                (listing_world one_device_text [lit "1"; lit "2"]) in
  fst run3 = Return ()
  ∧ spawned (trace (snd run3))
    = [[lit "adb"; lit "devices"];
       [lit "adb"; lit "-s"; lit "emulator-5554"; lit "pull"; lit "/system";
        lit "emulator-5554_system"]]
  ∧ last (printed_lines (trace (snd run3)))
    = Some (lit "/system pulled to local directory: emulator-5554_system")
  ∧ trace (snd run3) = trace (snd run2).
Proof. repeat split; vm_compute; reflexivity. Qed.
End ChooserTheorems.

(** ** A calculus of effects *)

Section Containment.
Implicit Types (w : world) (P Q : exn → bool) (n : nat).

Lemma contained_mono {A} P Q n n' (m : M A) :
  (∀ e, P e = true → Q e = true) → (n ≤ n')%nat →
  contained P n m → contained Q n' m.
Proof.
  intros HPQ Hn Hm w. destruct (Hm w) as (k & Hk & Hc & Hs & Hr).
  exists k. split; [lia|]. split; [done|]. split; [done|].
  destruct (fst (m w)); [done|]. destruct Hr. split; [by apply HPQ | done].
Qed.

Lemma contained_ret {A} P (a : A) : contained P 0 (mret a).
Proof. intros w. exists 0%nat. by cbn. Qed.

Lemma contained_emit P e : contained P 0 (emit e).
Proof. intros w. exists 0%nat. by cbn. Qed.

Lemma contained_print P line : contained P 0 (print line).
Proof. apply contained_emit. Qed.

Lemma contained_input P text :
  P EOFError = true → contained P 1 (input text).
Proof.
  intros HP w. unfold input. destruct (stdin w) as [|l rest] eqn:E.
  - exists 0%nat. cbn. rewrite ?E. repeat split; auto; lia.
  - exists 1%nat. cbn. rewrite ?E. repeat split; auto; lia.
Qed.

Lemma contained_subprocess_run P cmd check :
  (check = true → P (CalledProcessError cmd) = true) →
  contained P 0 (subprocess_run cmd check).
Proof.
  intros HP w. exists 0%nat. unfold subprocess_run.
  destruct check; cbn; [|done].
  destruct (exit_ok (children w cmd)); cbn; [done|].
  repeat split; auto; done.
Qed.

Lemma contained_or_raise {A} P e (o : option A) :
  P e = true → e ≠ EOFError → contained P 0 (or_raise e o).
Proof.
  intros HP He w. exists 0%nat. destruct o; cbn; [done|].
  repeat split; auto; done.
Qed.

Lemma contained_bind {A B} P n1 n2 (m : M A) (f : A → M B) :
  contained P n1 m → (∀ a, contained P n2 (f a)) →
  contained P (n1 + n2) (m ≫= f).
Proof.
  intros Hm Hf w. destruct (Hm w) as (k1 & Hk1 & Hc1 & Hs1 & Hr1).
  unfold mbind, M_bind. destruct (m w) as [[a|e] w1]; cbn in *.
  - destruct (Hf a w1) as (k2 & Hk2 & Hc2 & Hs2 & Hr2).
    exists (k1 + k2)%nat. split; [lia|]. split; [congruence|].
    split; [by rewrite Hs2, Hs1, drop_drop | done].
  - exists k1. split; [lia|]. done.
Qed.

Lemma contained_try {A} P Q n1 n2 (body : M A) catches handler :
  contained Q n1 body →
  (∀ e, Q e = true → catches e = true → contained P n2 (handler e)) →
  (∀ e, Q e = true → catches e = false → P e = true) →
  contained P (n1 + n2) (try_except body catches handler).
Proof.
  intros Hb Hh Hp w. destruct (Hb w) as (k1 & Hk1 & Hc1 & Hs1 & Hr1).
  unfold try_except. destruct (body w) as [[a|e] w1]; cbn in *.
  - exists k1. split; [lia|]. done.
  - destruct Hr1 as [HQ Heof]. destruct (catches e) eqn:Ec.
    + destruct (Hh e HQ Ec w1) as (k2 & Hk2 & Hc2 & Hs2 & Hr2).
      exists (k1 + k2)%nat. split; [lia|]. split; [congruence|].
      split; [by rewrite Hs2, Hs1, drop_drop | done].
    + exists k1. split; [lia|]. cbn. repeat split; auto.
Qed.

Lemma contained_run P cmd :
  P (CalledProcessError cmd) = true → contained P 0 (run cmd).
Proof.
  intros HP. unfold run. apply (contained_bind P 0 0).
  - apply contained_print.
  - intros _. by apply contained_subprocess_run.
Qed.

Lemma contained_print_all P lines : contained P 0 (print_all lines).
Proof.
  induction lines as [|l lines IH]; cbn [print_all].
  - apply contained_ret.
  - apply (contained_bind P 0 0); [apply contained_print | done].
Qed.

Lemma contained_print_devices P idx devices :
  contained P 0 (print_devices idx devices).
Proof.
  revert idx. induction devices as [|[serial state] devices IH]; intros idx;
    cbn [print_devices].
  - apply contained_ret.
  - apply (contained_bind P 0 0); [apply contained_print | done].
Qed.
End Containment.

(** ** What each operation may do *)

Section OperationEffects.
Implicit Types (w : world) (found_tools : gmap str str) (os : os_env).

Lemma contained_quiet {A} P n (m : M A) : contained no_exn 0 m → contained P n m.
Proof. apply contained_mono; [done | lia]. Qed.

Lemma list_avd_devices_contained avdmanager_path :
  contained no_exn 0 (list_avd_devices avdmanager_path).
Proof.
  unfold list_avd_devices. destruct (truthy avdmanager_path); cbn [negb].
  - apply (contained_try no_exn only_called 0 0).
    + apply (contained_bind only_called 0 0).
      * by apply contained_subprocess_run.
      * intros res. apply contained_ret.
    + intros e _ _. apply contained_ret.
    + done.
  - apply contained_ret.
Qed.

Lemma ensure_system_image_contained sdkmanager_path api tag abi :
  contained no_exn 0 (ensure_system_image sdkmanager_path api tag abi).
Proof.
  unfold ensure_system_image. destruct (truthy sdkmanager_path); cbn [negb].
  - apply (contained_bind no_exn 0 0); [apply contained_print|]. intros _.
    apply (contained_try no_exn only_called 0 0).
    + apply (contained_bind only_called 0 0); [by apply contained_run|].
      intros _. apply contained_ret.
    + intros e _ _. apply (contained_bind no_exn 0 0);
        [apply contained_print | intros _; apply contained_emit].
    + by intros [].
  - apply contained_print.
Qed.

Lemma create_avd_contained avdmanager_path sdkmanager_path name
    device_profile api :
  contained no_exn 0
    (create_avd avdmanager_path sdkmanager_path name device_profile api).
Proof.
  unfold create_avd. apply (contained_bind no_exn 0 0);
    [apply ensure_system_image_contained|]. intros _.
  destruct (truthy avdmanager_path); cbn [negb]; [|apply contained_print].
  apply (contained_bind no_exn 0 0); [apply contained_print|]. intros _.
  apply (contained_try no_exn only_called 0 0).
  - apply (contained_bind only_called 0 0); [by apply contained_run|].
    intros _. apply contained_print.
  - intros e _ _. apply contained_print.
  - by intros [].
Qed.

Lemma choose_connected_device_contained adb_path :
  contained only_eof 1 (choose_connected_device adb_path).
Proof.
  unfold choose_connected_device. destruct (truthy adb_path); cbn [negb].
  - apply (contained_try only_eof eof_or_called 1 0).
    + apply (contained_bind eof_or_called 0 1);
        [by apply contained_subprocess_run|]. intros res.
      destruct (connected_devices (stdout res)) as [|d devices].
      { apply (contained_bind eof_or_called 0 1); [apply contained_print|].
        intros _. apply contained_quiet, contained_ret. }
      apply (contained_bind eof_or_called 0 1); [apply contained_print|].
      intros _.
      apply (contained_bind eof_or_called 0 1);
        [apply contained_print_devices|]. intros _.
      apply (contained_bind eof_or_called 1 0); [by apply contained_input|].
      intros line.
      apply (contained_try eof_or_called
               (λ e, match e with ValueError | IndexError => true | _ => false end)
               0 0).
      * apply (contained_bind _ 0 0); [by apply contained_or_raise|].
        intros n. apply (contained_bind _ 0 0); [by apply contained_or_raise|].
        intros d0. apply contained_ret.
      * intros e _ _. apply (contained_bind _ 0 0); [apply contained_print|].
        intros _. apply contained_ret.
      * done.
    + intros e _ _. apply (contained_bind _ 0 0); [apply contained_print|].
      intros _. apply contained_ret.
    + by intros [].
  - apply (contained_bind only_eof 0 1); [apply contained_print|].
    intros _. apply contained_quiet, contained_ret.
Qed.

Lemma dump_by_dd_contained (adb serial : str) :
  contained no_exn 0 (dump_by_dd adb serial).
Proof.
  unfold dump_by_dd. apply (contained_bind no_exn 0 0); [apply contained_print|].
  intros _. apply (contained_try no_exn only_called 0 0).
  - apply (contained_bind _ 0 0); [by apply contained_run|]. intros _.
    apply (contained_bind _ 0 0); [by apply contained_run|]. intros _.
    apply (contained_bind _ 0 0); [apply contained_print|]. intros _.
    apply (contained_bind _ 0 0); [apply contained_print|]. intros _.
    apply (contained_bind _ 0 0); [by apply contained_run|]. intros _.
    apply contained_ret.
  - intros e _ _. apply contained_print.
  - by intros [].
Qed.

Lemma dump_by_pull_contained (adb serial : str) :
  contained no_exn 0 (dump_by_pull adb serial).
Proof.
  unfold dump_by_pull. apply (contained_bind no_exn 0 0); [apply contained_print|].
  intros _. apply (contained_try no_exn only_called 0 0).
  - apply (contained_bind _ 0 0); [by apply contained_run|]. intros _.
    apply contained_print.
  - intros e _ _. apply contained_print.
  - by intros [].
Qed.

Lemma ensure_tools_contained os : contained no_exn 0 (ensure_tools os).
Proof.
  unfold ensure_tools. destruct (ensure_tools_loop os TOOLS [] ∅) as [missing found].
  destruct missing; [apply contained_ret|].
  apply (contained_bind _ 0 0); [apply contained_print|]. intros _.
  apply (contained_bind _ 0 0); [apply contained_print|]. intros _.
  apply contained_ret.
Qed.
End OperationEffects.

(** ** More on the catalog parser *)

Section ParserExtras.
Implicit Types (devices : list DeviceRecord) (lines : list str) (l : str).

Lemma id_line_field l :
  is_id_line l = true → after_colon (strip l) = Some (default [] (after_colon (strip l))).
Proof.
  unfold is_id_line. intros H. apply startswith_spec in H as [v ->].
  by rewrite after_colon_id.
Qed.

Lemma name_line_field l :
  is_name_line l = true →
  is_id_line l = false
  ∧ after_colon (strip l) = Some (default [] (after_colon (strip l))).
Proof.
  unfold is_name_line, is_id_line. intros H.
  apply startswith_spec in H as [v ->].
  by rewrite name_not_id, after_colon_name.
Qed.

Lemma keyed_line_not_blank (key l : str) :
  key ≠ [] → startswith key (strip l) = true → truthy_str (strip l) = true.
Proof.
  intros Hk H. apply startswith_spec in H as [v ->]. by destruct key.
Qed.

Lemma parse_lines_id l lines devices current :
  is_id_line l = true →
  parse_lines (l :: lines) devices current
  = parse_lines lines (devices ++ [mkDevice (field l) None])
      (Some (length devices)).
Proof.
  intros H. cbn [parse_lines].
  rewrite (keyed_line_not_blank (lit "id:")) by done. cbn [negb].
  unfold is_id_line in H. rewrite H.
  by rewrite (id_line_field l H).
Qed.

Lemma parse_lines_name l lines devices d :
  is_name_line l = true →
  parse_lines (l :: lines) (devices ++ [d]) (Some (length devices))
  = parse_lines lines (devices ++ [set_name (field l) d]) (Some (length devices)).
Proof.
  intros H. destruct (name_line_field l H) as [Hid Hf]. cbn [parse_lines].
  rewrite (keyed_line_not_blank (lit "name:")) by done. cbn [negb].
  unfold is_id_line in Hid. unfold is_name_line in H. rewrite Hid, H, Hf.
  rewrite alter_app_r_alt by done. by rewrite Nat.sub_diag.
Qed.

Lemma parse_lines_orphan_name l lines :
  is_name_line l = true →
  parse_lines (l :: lines) [] None = parse_lines lines [] None.
Proof.
  intros H. destruct (name_line_field l H) as [Hid Hf]. cbn [parse_lines].
  rewrite (keyed_line_not_blank (lit "name:")) by done. cbn [negb].
  unfold is_id_line in Hid. unfold is_name_line in H. by rewrite Hid, H, Hf.
Qed.

Lemma parse_lines_other l lines devices current :
  is_id_line l = false → is_name_line l = false →
  parse_lines (l :: lines) devices current = parse_lines lines devices current.
Proof.
  unfold is_id_line, is_name_line. intros Hid Hname. cbn [parse_lines].
  rewrite Hid, Hname. by destruct (negb _).
Qed.

Lemma parse_lines_length lines devices current :
  length (parse_lines lines devices current)
  = (length devices + length (List.filter is_id_line lines))%nat.
Proof.
  revert devices current. induction lines as [|l lines IH];
    intros devices current.
  { cbn. lia. }
  cbn [List.filter]. destruct (is_id_line l) eqn:Hid.
  - rewrite parse_lines_id, IH by done. rewrite length_app. cbn. lia.
  - destruct (is_name_line l) eqn:Hname.
    + destruct (name_line_field l Hname) as [_ Hf]. cbn [parse_lines].
      rewrite (keyed_line_not_blank (lit "name:")) by done. cbn [negb].
      unfold is_id_line in Hid. unfold is_name_line in Hname.
      rewrite Hid, Hname, Hf. destruct current as [i|]; rewrite IH; [|done].
      by rewrite length_alter.
    + by rewrite parse_lines_other, IH.
Qed.

(** X1: for every output, the catalog has exactly as many records as the
    output has lines that, once stripped, start with [id:]. *)
Theorem parse_catalog_counts_id_lines (out : str) :
  length (parse_catalog out)
  = length (List.filter is_id_line (splitlines out)).
Proof. unfold parse_catalog. by rewrite parse_lines_length. Qed.

(** X2: lines that are neither [id:] nor [name:] lines, blank lines
    among them, never change the catalog: the parser reads a text as it
    reads the text with those lines removed. *)
Theorem parse_lines_skips_other_lines lines devices current :
  parse_lines (List.filter (λ l, is_id_line l || is_name_line l) lines)
    devices current
  = parse_lines lines devices current.
Proof.
  revert devices current. induction lines as [|l lines IH];
    intros devices current; [done|].
  cbn [List.filter]. destruct (is_id_line l) eqn:Hid; cbn [orb].
  - by rewrite !parse_lines_id, IH.
  - destruct (is_name_line l) eqn:Hname.
    + destruct (name_line_field l Hname) as [_ Hf]. cbn [parse_lines].
      rewrite (keyed_line_not_blank (lit "name:")) by done. cbn [negb].
      unfold is_id_line in Hid. unfold is_name_line in Hname.
      rewrite Hid, Hname, Hf. by destruct current; rewrite IH.
    + by rewrite parse_lines_other, IH.
Qed.

Lemma parse_lines_names names lines devices d :
  Forall (λ l, is_name_line l = true) names →
  parse_lines (names ++ lines) (devices ++ [d]) (Some (length devices))
  = parse_lines lines
      (devices ++ [mkDevice (id d) (from_option Some (name d) (last (field <$> names)))])
      (Some (length devices)).
Proof.
  intros H. revert d. induction H as [|l names Hl _ IH]; intros d.
  { cbn. by destruct d. }
  cbn [app]. rewrite parse_lines_name, IH by done. cbn [set_name id name].
  do 3 f_equal. cbn [fmap list_fmap]. fold (fmap (M:=list) field names).
  rewrite last_cons. by destruct (last (field <$> names)).
Qed.

Lemma parse_lines_blocks (blocks : list (str * list str)) devices current :
  Forall well_formed_block blocks →
  parse_lines (concat (block_lines <$> blocks)) devices current
  = devices ++ (block_record <$> blocks).
Proof.
  intros H. revert devices current.
  induction H as [|[idl names] blocks [Hid Hnames] _ IH];
    intros devices current.
  { cbn. by rewrite app_nil_r. }
  cbn [fmap list_fmap concat block_lines fst snd app] in *.
  rewrite parse_lines_id by done.
  rewrite parse_lines_names by done. fold (fmap (M:=list) block_lines blocks).
  rewrite IH. rewrite <- app_assoc. cbn [app id name].
  unfold block_record. cbn [fst snd]. fold (fmap (M:=list) block_record blocks).
  by destruct (last (field <$> names)).
Qed.

(** X3: a text whose lines are some [name:] lines followed by blocks,
    each an [id:] line with the [name:] lines after it, is parsed to one
    record per block, in order: its identifier is the value of the [id:]
    line and its name the value of the last [name:] line of the block, or
    absent when the block has none.  The [name:] lines before the first
    [id:] line are dropped. *)
Theorem parse_catalog_blocks (out : str) (orphans : list str)
    (blocks : list (str * list str)) :
  splitlines out = orphans ++ concat (block_lines <$> blocks) →
  Forall (λ l, is_name_line l = true) orphans →
  Forall well_formed_block blocks →
  parse_catalog out = block_record <$> blocks.
Proof.
  intros Hout Horph Hblocks. unfold parse_catalog. rewrite Hout. clear Hout.
  induction Horph as [|l orphans Hl _ IH]; cbn [app].
  - by rewrite parse_lines_blocks.
  - by rewrite parse_lines_orphan_name.
Qed.

Lemma parse_catalog_blocks_witness :
  parse_catalog (lit "name: lost" ++ [LF] ++ lit "id: 1" ++ [LF]
                 ++ lit "name: a" ++ [LF] ++ lit "name: b" ++ [LF]
                 ++ lit "id: 2")
  = [mkDevice (lit "1") (Some (lit "b")); mkDevice (lit "2") None].
Proof.
  apply (parse_catalog_blocks _ [lit "name: lost"]
           [(lit "id: 1", [lit "name: a"; lit "name: b"]); (lit "id: 2", [])]).
  - vm_compute. reflexivity.
  - repeat constructor.
  - repeat constructor.
Defined.
End ParserExtras.

(** ** More on profile selection *)

Section SelectorExtras.
Implicit Types (devices : list DeviceRecord) (d e : DeviceRecord) (p : str).

Lemma samsung_scan_elem devices p :
  samsung_scan devices = Some p → ∃ d, d ∈ devices ∧ id d = p.
Proof.
  induction devices as [|e devices IH]; cbn [samsung_scan]; [done|].
  cbn zeta. destruct (_ || _).
  - intros [= <-]. exists e. split; [by left | done].
  - intros H. destruct (IH H) as (d & ? & ?). exists d. split; [by right | done].
Qed.

Lemma pixel_profile_elem devices p :
  pixel_profile devices = Some p → ∃ d, d ∈ devices ∧ id d = p.
Proof.
  induction devices as [|e devices IH]; cbn [pixel_profile]; [done|].
  cbn zeta. destruct (_ || _).
  - intros [= <-]. exists e. split; [by left | done].
  - intros H. destruct (IH H) as (d & ? & ?). exists d. split; [by right | done].
Qed.

Lemma fallback_devices_elem (fallback : str) devices preferred p :
  fallback_devices fallback devices preferred = Some p →
  preferred = Some p ∨ ∃ d, d ∈ devices ∧ id d = p.
Proof.
  induction devices as [|e devices IH]; cbn [fallback_devices]; [by left|].
  destruct (fallback_hit fallback e).
  - intros [= <-]. right. exists e. split; [by left | done].
  - intros H. destruct (IH H) as [?|(d & ? & ?)]; [by left|].
    right. exists d. split; [by right | done].
Qed.

Lemma fallback_scan_elem (fbs : list str) devices preferred p :
  fallback_scan fbs devices preferred = Some p →
  preferred = Some p ∨ ∃ d, d ∈ devices ∧ id d = p.
Proof.
  revert preferred. induction fbs as [|f fbs IH]; intros preferred;
    cbn [fallback_scan]; [by left|].
  cbn zeta. destruct (truthy _).
  - apply fallback_devices_elem.
  - intros H. destruct (IH _ H) as [H'|?]; [|by right].
    by apply fallback_devices_elem in H'.
Qed.

(** X4: neither selector invents a profile: whatever it returns is the
    identifier of a record of the catalog. *)
Theorem selected_profile_is_catalog_id devices p :
  samsung_profile devices = Some p ∨ pixel_profile devices = Some p →
  ∃ d, d ∈ devices ∧ id d = p.
Proof.
  intros [H|H]; [|by apply pixel_profile_elem].
  unfold samsung_profile in H. destruct (negb _).
  - apply fallback_scan_elem in H as [H|H]; [|done].
    by apply samsung_scan_elem.
  - by apply samsung_scan_elem.
Qed.

Lemma selected_profile_is_catalog_id_witness :
  ∃ d, d ∈ [mkDevice (lit "7") (Some (lit "Nexus 7"));
            mkDevice (lit "23") (Some (lit "Pixel 5"))]
       ∧ id d = lit "23".
Proof.
  apply selected_profile_is_catalog_id. right. vm_compute. reflexivity.
Defined.

Lemma samsung_scan_none_iff devices :
  samsung_scan devices = None ↔ ∀ e, e ∈ devices → ¬ samsung_match e.
Proof.
  split; [|apply samsung_scan_none].
  induction devices as [|d devices IH]; cbn [samsung_scan].
  { intros _ e He. by apply elem_of_nil in He. }
  cbn zeta. destruct (_ || _) eqn:E; [done|]. intros H e He.
  apply elem_of_cons in He as [->|He]; [|by apply IH].
  intros Hm. apply samsung_test_spec in Hm. cbn zeta in Hm. congruence.
Qed.

Lemma fallback_devices_none_iff (fallback : str) devices :
  fallback_devices fallback devices None = None
  ↔ ∀ e, e ∈ devices → ¬ fallback_match fallback e.
Proof.
  split; [|apply fallback_devices_none].
  induction devices as [|d devices IH]; cbn [fallback_devices].
  { intros _ e He. by apply elem_of_nil in He. }
  destruct (fallback_hit fallback d) eqn:E; [done|]. intros H e He.
  apply elem_of_cons in He as [->|He]; [|by apply IH].
  intros Hm. apply fallback_hit_spec in Hm. congruence.
Qed.

Lemma fallback_devices_some (fallback : str) devices p :
  is_Some (fallback_devices fallback devices (Some p)).
Proof.
  induction devices as [|d devices IH]; cbn [fallback_devices]; [by eexists|].
  destruct (fallback_hit fallback d); [by eexists | done].
Qed.

Lemma fallback_scan_some (fbs : list str) devices p :
  is_Some (fallback_scan fbs devices (Some p)).
Proof.
  revert p. induction fbs as [|f fbs IH]; intros p; cbn [fallback_scan];
    [by eexists|].
  cbn zeta. destruct (fallback_devices_some f devices p) as [q ->].
  destruct (truthy (Some q)); [by eexists | apply IH].
Qed.

Lemma fallback_scan_none_iff (fbs : list str) devices :
  fallback_scan fbs devices None = None
  ↔ ∀ g e, g ∈ fbs → e ∈ devices → ¬ fallback_match g e.
Proof.
  split; [|apply fallback_scan_none].
  induction fbs as [|f fbs IH]; cbn [fallback_scan].
  { intros _ g e Hg. by apply elem_of_nil in Hg. }
  cbn zeta. destruct (fallback_devices f devices None) as [q|] eqn:E.
  - destruct (truthy (Some q)); [done|]. intros H.
    destruct (fallback_scan_some fbs devices q) as [x Hx]. congruence.
  - cbn [truthy]. intros H g e Hg He.
    apply elem_of_cons in Hg as [->|Hg]; [|by apply IH].
    by apply (fallback_devices_none_iff f devices).
Qed.

(** X5: the Samsung selector yields [None] exactly when no record of
    the catalog matches a Samsung keyword or a fallback string; the Pixel
    selector yields [None] exactly when no record matches its test. *)
Theorem no_profile_iff_no_match devices :
  (samsung_profile devices = None
   ↔ ∀ e, e ∈ devices →
       ¬ samsung_match e ∧ ∀ fb, fb ∈ fallbacks → ¬ fallback_match fb e)
  ∧ (pixel_profile devices = None ↔ ∀ e, e ∈ devices → ¬ pixel_match e).
Proof.
  split.
  - unfold samsung_profile. destruct (samsung_scan devices) as [q|] eqn:E.
    + split.
      * intros H. destruct (truthy (Some q)); cbn [negb] in H; [done|].
        destruct (fallback_scan_some fallbacks devices q) as [x Hx]. congruence.
      * intros H. assert (samsung_scan devices = None); [|congruence].
        apply samsung_scan_none_iff. intros e He. by apply H.
    + cbn [truthy negb]. rewrite fallback_scan_none_iff.
      pose proof (proj1 (samsung_scan_none_iff devices) E) as E'. split.
      * intros H e He. split; [by apply E'|]. intros fb Hfb. by apply H.
      * intros H g e Hg He. by apply H.
  - induction devices as [|d devices IH]; cbn [pixel_profile].
    { split; [|done]. intros _ e He. by apply elem_of_nil in He. }
    cbn zeta. destruct (_ || _) eqn:E.
    + split; [done|]. intros H. apply pixel_test_spec in E.
      destruct (H d); [by left | done].
    + rewrite IH. split.
      * intros H e He. apply elem_of_cons in He as [->|He]; [|by apply H].
        intros Hm. apply pixel_test_spec in Hm. congruence.
      * intros H e He. apply H. by right.
Qed.

Lemma fallback_devices_case (fallback : str) ds ds' preferred :
  same_up_to_case ds ds' →
  fallback_devices fallback ds preferred = fallback_devices fallback ds' preferred.
Proof.
  induction 1 as [|d d' ds ds' [Hid Hname] _ IH]; cbn [fallback_devices]; [done|].
  unfold fallback_hit. by rewrite Hid, Hname, IH.
Qed.

(** X6: the letter case of the names never matters: two catalogs with
    the same identifiers, whose names differ in letter case only, get the
    same profile from either selector. *)
Theorem selection_ignores_name_case (ds ds' : list DeviceRecord) :
  same_up_to_case ds ds' →
  samsung_profile ds = samsung_profile ds' ∧ pixel_profile ds = pixel_profile ds'.
Proof.
  intros H. split.
  - unfold samsung_profile.
    assert (samsung_scan ds = samsung_scan ds') as ->.
    { induction H as [|d d' ds ds' [Hid Hname] _ IH]; cbn [samsung_scan]; [done|].
      by rewrite Hid, Hname, IH. }
    destruct (negb _); [|done]. generalize (samsung_scan ds'). unfold fallbacks.
    generalize [lit "pixel_6"; lit "pixel_5"; lit "Nexus 6"; lit "Nexus 5X"].
    intros fbs. induction fbs as [|f fbs IH]; intros preferred;
      cbn [fallback_scan]; [done|].
    cbn zeta. rewrite (fallback_devices_case f ds ds') by done.
    by destruct (truthy _).
  - induction H as [|d d' ds ds' [Hid Hname] _ IH]; cbn [pixel_profile]; [done|].
    by rewrite Hid, Hname, IH.
Qed.

Lemma selection_ignores_name_case_witness :
  samsung_profile [mkDevice (lit "7") (Some (lit "GALAXY Nexus"))]
  = samsung_profile [mkDevice (lit "7") (Some (lit "Galaxy nexus"))].
Proof.
  apply selection_ignores_name_case. repeat constructor.
Defined.

Lemma xlarge_contains_large (s : str) :
  contains (lit "xlarge") s = true → contains (lit "large") s = true.
Proof.
  rewrite !contains_spec. intros (pre & post & ->).
  exists (pre ++ lit "x"), post. by rewrite <- app_assoc.
Qed.

(** X7: the keyword [xlarge] never decides anything: a name that
    contains it contains [large], so the first loop of the Samsung
    selector returns what a scan for [galaxy], [samsung] and [large]
    alone returns. *)
Theorem xlarge_is_subsumed (devices : list DeviceRecord) :
  samsung_scan devices
  = first_named [lit "galaxy"; lit "samsung"; lit "large"] devices.
Proof.
  induction devices as [|d devices IH]; [done|].
  cbn [samsung_scan first_named existsb]. cbn zeta. rewrite IH.
  rewrite orb_false_r.
  destruct (contains (lit "galaxy") _); [done|].
  destruct (contains (lit "samsung") _); [done|].
  destruct (contains (lit "large") _) eqn:El; [done|]. cbn [orb].
  destruct (contains (lit "xlarge") _) eqn:Ex; [|done].
  apply xlarge_contains_large in Ex. congruence.
Qed.
End SelectorExtras.

(** ** Numbers shown and numbers typed *)

Section DecimalFacts.
Implicit Types (d : Decimal.uint) (a n : nat) (s : str).

Lemma int_digits_uint d a (after_digit : bool) :
  d ≠ Decimal.Nil ∨ after_digit = true →
  int_digits (Z.of_nat a) after_digit (lit (NilEmpty.string_of_uint d))
  = Some (Z.of_nat (Nat.of_uint_acc d a)).
Proof.
  revert a after_digit.
  induction d as [|d IH|d IH|d IH|d IH|d IH|d IH|d IH|d IH|d IH|d IH];
    intros a after_digit Hd.
  { destruct Hd as [Hd| ->]; done. }
  all: cbn [NilEmpty.string_of_uint Nat.of_uint_acc];
    change (lit (String ?c ?r)) with (c :: lit r); cbn [int_digits];
    change (is_digit _) with true; cbv iota;
    rewrite <- (IH _ true) by (by right); f_equal;
    rewrite Nat.tail_mul_spec; vm_compute digit_val; lia.
Qed.

Lemma uint_chars_plain d :
  Forall (λ c, isspace c = false ∧ c ≠ chr 43 ∧ c ≠ chr 45)
    (lit (NilEmpty.string_of_uint d)).
Proof.
  induction d; cbn [NilEmpty.string_of_uint];
    [constructor | change (lit (String ?c ?r)) with (c :: lit r) ..];
    (constructor; [by vm_compute | done]).
Qed.

Lemma strip_plain s : Forall (λ c, isspace c = false) s → strip s = s.
Proof.
  intros H. unfold strip, lstrip, rstrip.
  assert (∀ t, Forall (λ c, isspace c = false) t → dropwhile isspace t = t) as Hd.
  { intros t Ht. destruct Ht as [|c t Hc _]; [done|]. cbn [dropwhile]. by rewrite Hc. }
  rewrite (Hd s H), Hd; [by rewrite reverse_involutive|].
  apply Forall_forall. intros c Hc. rewrite Forall_forall in H.
  apply H. by apply elem_of_reverse.
Qed.

(** What [str] prints for a natural number, [int] reads back. *)
Lemma py_int_str_of_nat n : py_int (str_of_nat n) = Some (Z.of_nat n).
Proof.
  unfold str_of_nat. rewrite <- (DecimalNat.Unsigned.of_to n) at 2.
  unfold Nat.of_uint. generalize (Nat.to_uint n). intros d.
  destruct d as [|d|d|d|d|d|d|d|d|d|d]; [done|..].
  all: cbn [NilZero.string_of_uint]; unfold py_int;
    match goal with
    | |- context [lit (NilEmpty.string_of_uint ?u)] =>
        assert (u ≠ Decimal.Nil) as Hnil by done;
        pose proof (uint_chars_plain u) as Hplain;
        pose proof (int_digits_uint u 0 false (or_introl Hnil)) as Hint;
        clear Hnil;
        set (t := lit (NilEmpty.string_of_uint u)) in *
    end;
    rewrite strip_plain by (eapply Forall_impl; [exact Hplain | by intros ? []]);
    destruct t as [|c r]; [by inversion Hint|];
    apply Forall_cons in Hplain as [(_ & Hplus & Hminus) _];
    rewrite !bool_decide_eq_false_2 by done; exact Hint.
Qed.
End DecimalFacts.

(** ** More on the connected-device chooser *)

Section ChooserExtras.
Implicit Types (w : world) (devices : list (str * str)) (path line : str).

Lemma split_ws_go_blank (s : str) : blank s → split_ws_go [] s = [].
Proof.
  induction 1 as [|c s Hc _ IH]; [done|]. cbn [split_ws_go]. by rewrite Hc.
Qed.

Lemma split_ws_go_tokens (cur s : str) :
  Forall (λ t, t ≠ []) (split_ws_go cur s).
Proof.
  revert cur. induction s as [|c s IH]; intros cur; cbn [split_ws_go].
  - destruct cur; [constructor | by repeat constructor].
  - destruct (isspace c); [|apply IH].
    destruct cur; [apply IH|]. constructor; [done | apply IH].
Qed.

Lemma first_two_fields_blank (l : str) :
  truthy_str (strip l) = false → first_two_fields l = None.
Proof.
  intros H. unfold first_two_fields, split_ws.
  rewrite split_ws_go_blank; [done|]. apply strip_nil. by destruct (strip l).
Qed.

Lemma connected_devices_omap (out : str) :
  connected_devices out
  = omap first_two_fields (drop 1 (splitlines (strip out))).
Proof.
  unfold connected_devices. generalize (drop 1 (splitlines (strip out))).
  intros lines. induction lines as [|l lines IH]; [done|].
  cbn [connected_of_lines omap list_omap]. fold (omap first_two_fields lines).
  destruct (truthy_str (strip l)) eqn:E; cbn [negb].
  - unfold first_two_fields. rewrite IH.
    by destruct (split_ws l) as [|serial [|state fields]].
  - by rewrite first_two_fields_blank, IH.
Qed.

(** X8: the device list read from the output of [adb devices]: the first
    line is skipped whatever it says, and of the lines after it exactly
    those with at least two whitespace-separated fields become devices,
    serial and state being the first two fields; the test for blank lines
    of the source changes nothing. *)
Theorem connected_devices_are_two_field_lines (out : str) :
  connected_devices out
  = omap first_two_fields (drop 1 (splitlines (strip out))).
Proof. apply connected_devices_omap. Qed.

Lemma connected_devices_serials (out serial state : str) :
  (serial, state) ∈ connected_devices out → serial ≠ [] ∧ state ≠ [].
Proof.
  rewrite connected_devices_omap. intros H.
  apply list_elem_of_omap in H as (l & _ & H). unfold first_two_fields in H.
  pose proof (split_ws_go_tokens [] l) as Ht. fold (split_ws l) in Ht.
  destruct (split_ws l) as [|a [|b fields]]; [done..|].
  injection H as -> ->.
  apply Forall_cons in Ht as [? Ht]. by apply Forall_cons in Ht as [? _].
Qed.

Lemma choose_without_adb adb_path w :
  truthy adb_path = false →
  choose_connected_device adb_path w
  = (Return None,
     mkWorld (children w) (stdin w) (trace w ++ [Printed (lit "adb not found.")])).
Proof. intros H. unfold choose_connected_device. by rewrite H. Qed.

Lemma choose_adb_failed path w :
  truthy_str path = true →
  exit_ok (children w [path; lit "devices"]) = false →
  choose_connected_device (Some path) w
  = (Return None,
     mkWorld (children w) (stdin w)
       (trace w ++ [Spawn [path; lit "devices"];
                    Printed (lit "adb devices failed.")])).
Proof.
  intros Hp Hfail. unfold choose_connected_device. cbn [truthy]. rewrite Hp.
  change (default [] (Some path)) with path. run_monad. rewrite Hfail.
  run_monad. by rewrite <- app_assoc.
Qed.

Lemma choose_no_devices path w :
  truthy_str path = true →
  exit_ok (children w [path; lit "devices"]) = true →
  connected_devices (stdout (children w [path; lit "devices"])) = [] →
  choose_connected_device (Some path) w
  = (Return None,
     mkWorld (children w) (stdin w)
       (trace w ++ [Spawn [path; lit "devices"];
                    Printed (lit "No devices/emulators attached.")])).
Proof.
  intros Hp Hok Hnone. unfold choose_connected_device. cbn [truthy]. rewrite Hp.
  change (default [] (Some path)) with path. run_monad. rewrite Hok.
  run_monad. rewrite Hnone. run_monad. by rewrite <- app_assoc.
Qed.

Lemma choose_at_end_of_input path w devices :
  truthy_str path = true →
  exit_ok (children w [path; lit "devices"]) = true →
  connected_devices (stdout (children w [path; lit "devices"])) = devices →
  devices ≠ [] → stdin w = [] →
  choose_connected_device (Some path) w
  = (Raise EOFError,
     mkWorld (children w) [] (trace w ++ chooser_prelude path devices)).
Proof.
  intros Hp Hok Hdev Hne Hin. unfold choose_connected_device. cbn [truthy].
  rewrite Hp. change (default [] (Some path)) with path. run_monad.
  rewrite Hok. run_monad. rewrite Hdev.
  destruct devices as [|d0 devices0]; [done|]. clear Hne.
  set (devices := d0 :: devices0) in *.
  rewrite print_devices_runs. run_monad. rewrite Hin.
  unfold chooser_prelude. rewrite <- !app_assoc. reflexivity.
Qed.

Lemma py_index_nat {A} (l : list A) (i : nat) :
  py_index l (Z.of_nat (S i) - 1) = l !! i.
Proof.
  unfold py_index. destruct (Z.leb_spec 0 (Z.of_nat (S i) - 1)); [|lia].
  f_equal. lia.
Qed.

Lemma py_index_elem {A} (l : list A) (i : Z) (x : A) :
  py_index l i = Some x → x ∈ l.
Proof.
  unfold py_index. destruct (0 <=? i); [apply list_elem_of_lookup_2|].
  destruct (_ <=? i); [apply list_elem_of_lookup_2 | done].
Qed.

Lemma py_index_is_Some {A} (l : list A) (i : Z) :
  is_Some (py_index l i) ↔ - Z.of_nat (length l) ≤ i < Z.of_nat (length l).
Proof.
  unfold py_index. destruct (Z.leb_spec 0 i).
  - rewrite lookup_lt_is_Some. lia.
  - destruct (Z.leb_spec (- Z.of_nat (length l)) i).
    + rewrite lookup_lt_is_Some. lia.
    + split; [by intros [] | lia].
Qed.

Lemma device_lines_lookup idx devices (i : nat) (serial state : str) :
  devices !! i = Some (serial, state) →
  Printed (str_of_nat (idx + i) ++ lit ") " ++ serial ++ lit " (" ++ state ++ lit ")")
    ∈ device_lines idx devices.
Proof.
  revert idx i. induction devices as [|[s0 t0] devices IH]; intros idx i; [done|].
  destruct i as [|i]; cbn [device_lines].
  - intros [= -> ->]. rewrite Nat.add_0_r. by left.
  - intros H. right. replace (idx + S i)%nat with (S idx + i)%nat by lia.
    by apply IH.
Qed.
End ChooserExtras.

Section ChooserExtraTheorems.
Implicit Types (w : world) (devices : list (str * str)) (path line : str).
Implicit Types (found_tools : gmap str str).

(** X9: the number shown selects the device shown.  When the list shows
    a device on line [i+1] and the user types that number (or nothing at
    all for the first device), the chooser returns the serial printed on
    that line. *)
Theorem shown_number_selects_shown_device path w devices (i : nat)
    (serial state : str) line rest :
  truthy_str path = true →
  exit_ok (children w [path; lit "devices"]) = true →
  connected_devices (stdout (children w [path; lit "devices"])) = devices →
  devices !! i = Some (serial, state) →
  stdin w = line :: rest →
  strip line = str_of_nat (S i) ∨ (i = 0%nat ∧ strip line = []) →
  ∃ w',
    choose_connected_device (Some path) w = (Return (Some serial), w')
    ∧ Printed (str_of_nat (S i) ++ lit ") " ++ serial ++ lit " (" ++ state ++ lit ")")
        ∈ trace w'
    ∧ stdin w' = rest.
Proof.
  intros Hp Hok Hdev Hi Hin Hline.
  assert (devices ≠ []) as Hne by (by destruct devices).
  pose proof (choose_connected_device_runs path w _ line rest Hp Hok Hdev
                Hne Hin) as Hrun. cbn zeta in Hrun.
  assert ((if negb (truthy_str (strip line)) then lit "1" else strip line)
          = str_of_nat (S i)) as Hchoice.
  { destruct Hline as [->|[-> ->]]; [|done].
    assert (truthy_str (str_of_nat (S i)) = true) as ->; [|done].
    pose proof (py_int_str_of_nat (S i)) as H.
    by destruct (str_of_nat (S i)). }
  rewrite Hchoice, py_int_str_of_nat in Hrun. cbn [mbind option_bind] in Hrun.
  rewrite py_index_nat, Hi in Hrun. eexists. split; [exact Hrun|].
  cbn [trace stdin fst]. split; [|done].
  unfold chooser_prelude. rewrite !elem_of_app. right. right. left.
  by apply (device_lines_lookup 1).
Qed.

Lemma shown_number_selects_shown_device_witness :
  ∃ w',
    choose_connected_device (Some (lit "adb"))
      (listing_world one_device_text [lit " 1 "])
    = (Return (Some (lit "emulator-5554")), w')
    ∧ Printed (lit "1) emulator-5554 (device)") ∈ trace w'
    ∧ stdin w' = [].
Proof.
  apply (shown_number_selects_shown_device (lit "adb")
           (listing_world one_device_text [lit " 1 "])
           [(lit "emulator-5554", lit "device")] 0
           (lit "emulator-5554") (lit "device") (lit " 1 ") []);
    try (vm_compute; reflexivity).
  left. vm_compute. reflexivity.
Defined.

(** X10: which answers the chooser takes.  With a non-empty device list
    and one line of input, of characters below 256, whose stripped text
    has at most 4300 characters (so that [int] reads it whatever its
    number of digits),
    the chooser returns a serial exactly when the answer (an empty answer
    counting as [1]) is read by [int] as a number [n] with
    [1 - len <= n <= len], [len] being the number of devices: zero and
    negative numbers down to [1 - len] are taken, counting from the end.
    Every other answer is reported with [Invalid choice.] and yields no
    serial. *)
Theorem chooser_accepts_exactly_index_range path w devices line rest :
  truthy_str path = true →
  exit_ok (children w [path; lit "devices"]) = true →
  connected_devices (stdout (children w [path; lit "devices"])) = devices →
  devices ≠ [] →
  stdin w = line :: rest →
  (length (strip line) ≤ 4300)%nat →
  let choice := if negb (truthy_str (strip line)) then lit "1" else strip line in
  let in_range :=
    ∃ n, py_int choice = Some n
         ∧ 1 - Z.of_nat (length devices) ≤ n ≤ Z.of_nat (length devices) in
  (in_range →
     ∃ serial w', choose_connected_device (Some path) w
                  = (Return (Some serial), w'))
  ∧ (¬ in_range →
     ∃ w', choose_connected_device (Some path) w = (Return None, w')
           ∧ last (trace w') = Some (Printed (lit "Invalid choice."))).
Proof.
  intros Hp Hok Hdev Hne Hin _ choice in_range.
  pose proof (choose_connected_device_runs path w _ line rest Hp Hok Hdev
                Hne Hin) as Hrun. cbn zeta in Hrun. fold choice in Hrun.
  split.
  - intros (n & Hn & Hrange). rewrite Hn in Hrun. cbn [mbind option_bind] in Hrun.
    destruct (proj2 (py_index_is_Some devices (n - 1))) as [d Hd]; [lia|].
    rewrite Hd in Hrun. by eexists _, _.
  - intros Hout.
    destruct (py_int choice ≫= λ n, py_index devices (n - 1)) as [d|] eqn:E.
    + destruct Hout. destruct (py_int choice) as [n|]; [|done].
      cbn [mbind option_bind] in E. exists n. split; [done|].
      assert (is_Some (py_index devices (n - 1))) as Hs by (by eexists).
      apply py_index_is_Some in Hs. lia.
    + eexists. split; [exact Hrun|]. cbn [trace]. by rewrite last_snoc.
Qed.

Lemma chooser_accepts_exactly_index_range_witness :
  ∃ w',
    choose_connected_device (Some (lit "adb"))
      (listing_world one_device_text [lit "two"])
    = (Return None, w')
    ∧ last (trace w') = Some (Printed (lit "Invalid choice.")).
Proof.
  apply (proj2 (chooser_accepts_exactly_index_range (lit "adb")
                  (listing_world one_device_text [lit "two"])
                  [(lit "emulator-5554", lit "device")] (lit "two") []
                  eq_refl eq_refl eq_refl ltac:(discriminate) eq_refl
                  ltac:(vm_compute; lia))).
  intros (n & Hn & _). vm_compute in Hn. discriminate Hn.
Defined.

Lemma chosen_serial_sound adb_path w (serial : str) w' :
  choose_connected_device adb_path w = (Return (Some serial), w') →
  serial ≠ []
  ∧ ∃ path state,
      adb_path = Some path ∧ truthy_str path = true
      ∧ (serial, state)
          ∈ connected_devices (stdout (children w [path; lit "devices"])).
Proof.
  intros Hrun. destruct (truthy adb_path) eqn:Ht.
  2: { by rewrite choose_without_adb in Hrun. }
  destruct adb_path as [path|]; [|done]. cbn [truthy] in Ht.
  destruct (exit_ok (children w [path; lit "devices"])) eqn:Hok.
  2: { by rewrite choose_adb_failed in Hrun. }
  destruct (connected_devices (stdout (children w [path; lit "devices"])))
    as [|d0 devices0] eqn:Hdev.
  { by rewrite choose_no_devices in Hrun. }
  destruct (stdin w) as [|line rest] eqn:Hin.
  { by rewrite (choose_at_end_of_input path w _ Ht Hok Hdev) in Hrun. }
  rewrite (choose_connected_device_runs path w _ line rest Ht Hok Hdev) in Hrun
    by done. cbn zeta in Hrun.
  destruct (py_int _) as [n|]; cbn [mbind option_bind] in Hrun; [|done].
  destruct (py_index _ _) as [[s0 t0]|] eqn:Hidx; [|done].
  injection Hrun as <- _. apply py_index_elem in Hidx.
  rewrite <- Hdev in Hidx. split.
  - by apply connected_devices_serials in Hidx as [? _].
  - by exists path, t0.
Qed.

(** X11: the chooser never returns a serial that is not on the list: a
    returned serial is the non-empty first field of one of the device
    lines printed by [adb devices]. *)
Theorem chosen_serial_is_listed adb_path w (serial : str) w' :
  choose_connected_device adb_path w = (Return (Some serial), w') →
  serial ≠ []
  ∧ ∃ path state,
      adb_path = Some path ∧ truthy_str path = true
      ∧ (serial, state)
          ∈ connected_devices (stdout (children w [path; lit "devices"])).
Proof. apply chosen_serial_sound. Qed.

Lemma chosen_serial_is_listed_witness :
  lit "emulator-5554" ≠ []
  ∧ ∃ path state,
      Some (lit "adb") = Some path ∧ truthy_str path = true
      ∧ (lit "emulator-5554", state)
          ∈ connected_devices
              (stdout (children (listing_world one_device_text [lit "0"])
                         [path; lit "devices"])).
Proof.
  refine (chosen_serial_is_listed (Some (lit "adb"))
            (listing_world one_device_text [lit "0"]) (lit "emulator-5554")
            (snd (choose_connected_device (Some (lit "adb"))
                    (listing_world one_device_text [lit "0"]))) _).
  vm_compute. reflexivity.
Defined.

(** X12: when [adb devices] fails or lists no device, the dump stops
    before any prompt: it returns having read no input, written no
    prompt and started no child besides [adb devices]. *)
Theorem dump_aborts_before_prompting found_tools w path :
  found_tools !! lit "adb" = Some path → truthy_str path = true →
  exit_ok (children w [path; lit "devices"]) = false
  ∨ connected_devices (stdout (children w [path; lit "devices"])) = [] →
  ∃ w' (message : str),
    create_system_image_dump found_tools w = (Return (), w')
    ∧ stdin w' = stdin w
    ∧ trace w' = trace w ++ [Spawn [path; lit "devices"]; Printed message].
Proof.
  intros Hadb Hp Hcase.
  assert (∃ message,
    choose_connected_device (Some path) w
    = (Return None,
       mkWorld (children w) (stdin w)
         (trace w ++ [Spawn [path; lit "devices"]; Printed message])))
    as [message Hrun].
  { destruct (exit_ok (children w [path; lit "devices"])) eqn:Hok.
    - destruct Hcase as [|Hnone]; [done|]. eexists. by apply choose_no_devices.
    - eexists. by apply choose_adb_failed. }
  eexists _, message. unfold create_system_image_dump.
  rewrite Hadb. cbn [truthy]. rewrite Hp. cbn [negb].
  unfold mbind at 1, M_bind at 1. rewrite Hrun. by cbn.
Qed.

Lemma dump_aborts_before_prompting_witness :
  ∃ w' (message : str),
    create_system_image_dump {[ lit "adb" := lit "adb" ]}
      (failing_world [lit "1"; lit "1"])
    = (Return (), w')
    ∧ stdin w' = [lit "1"; lit "1"]
    ∧ trace w' = [Spawn [lit "adb"; lit "devices"]; Printed message].
Proof.
  apply (dump_aborts_before_prompting {[ lit "adb" := lit "adb" ]}
           (failing_world [lit "1"; lit "1"]) (lit "adb")).
  - vm_compute. reflexivity.
  - reflexivity.
  - left. reflexivity.
Defined.
End ChooserExtraTheorems.

(** ** More on the system dump *)

Section DumpExtras.
Implicit Types (w : world) (path serial line : str).
Implicit Types (found_tools : gmap str str).






Lemma create_system_image_dump_contained found_tools :
  contained only_eof 2 (create_system_image_dump found_tools).
Proof.
  unfold create_system_image_dump.
  destruct (truthy (found_tools !! lit "adb")); cbn [negb];
    [|apply contained_quiet, contained_print].
  apply (contained_bind only_eof 1 1);
    [apply choose_connected_device_contained|]. intros serial.
  destruct (truthy serial); cbn [negb]; [|apply contained_quiet, contained_ret].
  do 4 (apply (contained_bind only_eof 0 1); [apply contained_print|];
        intros _).
  apply (contained_bind only_eof 1 0); [by apply contained_input|].
  intros line. destruct (bool_decide _).
  - apply contained_quiet, dump_by_dd_contained.
  - apply contained_quiet, dump_by_pull_contained.
Qed.

Lemma setup_shizuku_contained os found_tools :
  contained only_eof 1 (setup_shizuku os found_tools).
Proof.
  unfold setup_shizuku.
  destruct (truthy (found_tools !! lit "adb")); cbn [negb];
    [|apply contained_quiet, contained_print].
  apply (contained_bind only_eof 0 1); [apply contained_print|]. intros _.
  apply (contained_bind only_eof 1 0); [by apply contained_input|].
  intros line. apply (contained_bind only_eof 0 0);
    [|intros _; apply contained_print_all].
  destruct (truthy_str (strip line)); [|apply contained_ret].
  destruct (negb _); [apply contained_print|].
  apply (contained_try only_eof only_called 0 0).
  - apply (contained_bind _ 0 0); [by apply contained_run|]. intros _.
    apply contained_print.
  - intros e _ _. apply contained_print.
  - by intros [].
Qed.

Lemma contained_catches {A} n (m : M A) w :
  contained only_eof n m →
  ¬ lets_out_exit_status (m w)
  ∧ reads_at_most n w (m w)
  ∧ (fst (m w) = Raise EOFError → stdin (snd (m w)) = []).
Proof.
  intros Hm. destruct (Hm w) as (k & Hk & _ & Hs & Hr).
  split; [|split].
  - intros [cmd E]. rewrite E in Hr. by destruct Hr.
  - by exists k.
  - intros E. rewrite E in Hr. by apply Hr.
Qed.

(** X15: a non-zero exit status never leaves the four menu operations.
    Each of them catches the [CalledProcessError] of every command it
    runs with [check=True]: none ends on that exception, whatever the
    exit statuses of the children and whatever the user types.  The
    operations themselves read little of the input: creating a Samsung
    or a Pixel device calls [input] not at all, the dump reads at most
    two lines and the Shizuku helper at most one; and when one of these
    two ends on [EOFError], the input is used up. *)
Theorem menu_operations_catch_exit_status os found_tools w :
  (¬ lets_out_exit_status (create_samsung_device found_tools w)
   ∧ stdin (snd (create_samsung_device found_tools w)) = stdin w)
  ∧ (¬ lets_out_exit_status (create_pixel_device found_tools w)
     ∧ stdin (snd (create_pixel_device found_tools w)) = stdin w)
  ∧ (¬ lets_out_exit_status (create_system_image_dump found_tools w)
     ∧ reads_at_most 2 w (create_system_image_dump found_tools w)
     ∧ (fst (create_system_image_dump found_tools w) = Raise EOFError →
        stdin (snd (create_system_image_dump found_tools w)) = []))
  ∧ (¬ lets_out_exit_status (setup_shizuku os found_tools w)
     ∧ reads_at_most 1 w (setup_shizuku os found_tools w)
     ∧ (fst (setup_shizuku os found_tools w) = Raise EOFError →
        stdin (snd (setup_shizuku os found_tools w)) = [])).
Proof.
  assert (∀ m : M unit, contained no_exn 0 m →
            ¬ lets_out_exit_status (m w) ∧ stdin (snd (m w)) = stdin w)
    as Hquiet.
  { intros m Hm.
    destruct (contained_catches 0 m w) as (Hc & (k & Hk & Hs) & _).
    - by apply contained_quiet.
    - split; [done|]. rewrite Hs. by replace k with 0%nat by lia. }
  split; [|split; [|split]].
  - apply Hquiet. unfold create_samsung_device.
    apply (contained_bind no_exn 0 0); [apply list_avd_devices_contained|].
    intros devices.
    apply (contained_bind no_exn 0 0); [apply create_avd_contained|].
    intros _. apply contained_print.
  - apply Hquiet. unfold create_pixel_device.
    apply (contained_bind no_exn 0 0); [apply list_avd_devices_contained|].
    intros devices.
    apply (contained_bind no_exn 0 0); [apply create_avd_contained|].
    intros _. apply contained_print.
  - apply contained_catches, create_system_image_dump_contained.
  - apply contained_catches, setup_shizuku_contained.
Qed.
End DumpExtras.

(** ** The Shizuku helper *)

Section ShizukuExtras.
Implicit Types (w : world) (os : os_env) (found_tools : gmap str str).

Lemma print_all_runs (lines : list str) w :
  print_all lines w
  = (Return (), mkWorld (children w) (stdin w) (trace w ++ (Printed <$> lines))).
Proof.
  revert w. induction lines as [|l lines IH]; intros w; cbn [print_all].
  - cbn. rewrite app_nil_r. by destruct w.
  - run_monad. rewrite IH. cbn [children stdin trace fmap list_fmap].
    by rewrite <- app_assoc.
Qed.

Lemma printed_lines_fmap (lines : list str) :
  printed_lines (Printed <$> lines) = lines.
Proof. induction lines as [|l lines IH]; [done|]. cbn. by f_equal. Qed.

(** X16: the Shizuku helper, with [adb] located and one line of input.
    It installs only an APK that exists.  When the stripped answer is
    empty or names no existing path, the helper starts no child, prints
    [APK path does not exist.] for a non-empty answer, then the five
    lines of advice, and returns.  When the answer names an existing
    path, [adb install -r <path>] is the one child started; once it has
    run to an exit status the helper prints
    [APK installed (or reinstalled).] for status zero and
    [Failed to install APK via adb.] otherwise, then in both cases the
    five lines of advice, and returns. *)
Theorem setup_shizuku_installs_only_existing_apk os found_tools w
    (path line : str) rest (installed : bool) :
  found_tools !! lit "adb" = Some path → truthy_str path = true →
  stdin w = line :: rest →
  let apk := strip line in
  let cmd := [path; lit "install"; lit "-r"; apk] in
  let result := setup_shizuku os found_tools w in
  exits_with w cmd installed →
  fst result = Return ()
  ∧ stdin (snd result) = rest
  ∧ (truthy_str apk && path_exists os apk = false →
     spawned (trace (snd result)) = spawned (trace w)
     ∧ printed_lines (trace (snd result))
       = printed_lines (trace w)
         ++ [lit "Shizuku setup helper."]
         ++ (if truthy_str apk then [lit "APK path does not exist."] else [])
         ++ shizuku_advice)
  ∧ (truthy_str apk && path_exists os apk = true →
     spawned (trace (snd result)) = spawned (trace w) ++ [cmd]
     ∧ printed_lines (trace (snd result))
       = printed_lines (trace w)
         ++ [lit "Shizuku setup helper.";
             lit "+ " ++ join (lit " ") cmd;
             if installed then lit "APK installed (or reinstalled)."
             else lit "Failed to install APK via adb."]
         ++ shizuku_advice).
Proof.
  intros Hadb Hp Hin apk cmd result Hexit. unfold exits_with in Hexit.
  assert (∀ ls : list str, spawned (Printed <$> ls) = []) as Hsp
    by (intros ls; induction ls; [done | by cbn]).
  subst result cmd apk installed. unfold setup_shizuku. rewrite Hadb.
  cbn [truthy]. rewrite Hp. cbn [negb].
  change (default [] (Some path)) with path.
  run_monad. rewrite Hin.
  destruct (truthy_str (strip line)); cbn [andb]; run_monad;
    [destruct (path_exists os (strip line)); cbn [negb]; run_monad;
     [destruct (exit_ok _); run_monad|]|].
  all: rewrite print_all_runs; cbn [fst snd stdin trace].
  all: split; [done|]; split; [done|]; split; intros E; try done.
  all: rewrite !spawned_app, !printed_app, Hsp, printed_lines_fmap.
  all: split; by trace_norm.
Qed.

Lemma setup_shizuku_installs_only_existing_apk_witness :
  let result :=
    setup_shizuku (mkOs (λ _, None) ∅ (λ _, true))
      {[ lit "adb" := lit "adb" ]} (failing_world [lit " shizuku.apk"]) in
  fst result = Return ()
  ∧ spawned (trace (snd result))
    = [[lit "adb"; lit "install"; lit "-r"; lit "shizuku.apk"]]
  ∧ printed_lines (trace (snd result))
    = [lit "Shizuku setup helper.";
       lit "+ adb install -r shizuku.apk";
       lit "Failed to install APK via adb."] ++ shizuku_advice.
Proof.
  cbn zeta.
  assert (({[ lit "adb" := lit "adb" ]} : gmap str str) !! lit "adb"
          = Some (lit "adb")) as Hadb by (vm_compute; reflexivity).
  destruct (setup_shizuku_installs_only_existing_apk
              (mkOs (λ _, None) ∅ (λ _, true)) {[ lit "adb" := lit "adb" ]}
              (failing_world [lit " shizuku.apk"]) (lit "adb")
              (lit " shizuku.apk") [] false Hadb eq_refl eq_refl eq_refl)
    as (Hret & _ & _ & Hrun).
  destruct (Hrun eq_refl) as [Hsp Hpr].
  split; [exact Hret|]. split; [rewrite Hsp | rewrite Hpr]; vm_compute;
    reflexivity.
Defined.
End ShizukuExtras.

(** ** The tool locator *)

Section LocatorExtras.
Implicit Types (os : os_env) (t p root : str) (w : world).

Lemma path_join_nonempty (path : str) (parts : list str) :
  path ≠ [] → path_join path parts ≠ [].
Proof.
  revert path. induction parts as [|b parts IH]; intros path Hp; [done|].
  cbn [path_join]. destruct (startswith (lit "/") b) eqn:E.
  - apply IH. apply startswith_spec in E as [r ->]. done.
  - destruct (_ || _); apply IH; by destruct path.
Qed.

Lemma first_existing_elem os (paths : list str) p :
  first_existing os paths = Some p → p ∈ paths ∧ path_exists os p = true.
Proof.
  induction paths as [|pp paths IH]; cbn [first_existing]; [done|].
  destruct (path_exists os pp) eqn:E.
  - intros [= <-]. split; [by left | done].
  - intros H. destruct (IH H). split; [by right | done].
Qed.

Lemma which_or_env_sound os t p :
  which_or_env os t = Some p →
  p ≠ [] ∧ (which os t = Some p ∨ path_exists os p = true).
Proof.
  unfold which_or_env. destruct (truthy (which os t)) eqn:Hw.
  - intros H. rewrite H in Hw. split; [by destruct p | by left].
  - destruct (truthy (py_or _ _)) eqn:Hroot; cbn [negb]; [|done].
    intros H. apply first_existing_elem in H as [Hin Hex].
    split; [|by right].
    destruct (py_or _ _) as [root|]; [|done]. cbn [default from_option] in Hin.
    assert (root ≠ []) as Hne by (by destruct root).
    unfold possible in Hin.
    repeat (apply elem_of_cons in Hin as [->|Hin];
            [by apply path_join_nonempty|]).
    by apply elem_of_nil in Hin.
Qed.

(** X17: a located tool is a usable path: whatever [which_or_env]
    returns is non-empty, and it is either the answer of the PATH lookup
    or a path that exists. *)
Theorem located_tool_is_usable os t p :
  which_or_env os t = Some p →
  p ≠ [] ∧ (which os t = Some p ∨ path_exists os p = true).
Proof. apply which_or_env_sound. Qed.

Lemma located_tool_is_usable_witness :
  lit "/sdk/platform-tools/adb" ≠ []
  ∧ (which home_sdk_os (lit "adb") = Some (lit "/sdk/platform-tools/adb")
     ∨ path_exists home_sdk_os (lit "/sdk/platform-tools/adb") = true).
Proof.
  apply (located_tool_is_usable home_sdk_os (lit "adb")
           (lit "/sdk/platform-tools/adb")).
  vm_compute. reflexivity.
Defined.

(** X18: which variable names the SDK root.  A non-empty
    [ANDROID_SDK_ROOT] decides alone: [ANDROID_HOME] is then never
    looked at.  An empty [ANDROID_SDK_ROOT] counts as an unset one: the
    result is then the one obtained with the variable removed. *)
Theorem sdk_root_precedence os t :
  (∀ os',
     (∀ x, which os' x = which os x) →
     (∀ x, path_exists os' x = path_exists os x) →
     environ os' !! lit "ANDROID_SDK_ROOT" = environ os !! lit "ANDROID_SDK_ROOT" →
     truthy (environ os !! lit "ANDROID_SDK_ROOT") = true →
     which_or_env os' t = which_or_env os t)
  ∧ (truthy (environ os !! lit "ANDROID_SDK_ROOT") = false →
     which_or_env
       (mkOs (which os) (delete (lit "ANDROID_SDK_ROOT") (environ os))
          (path_exists os)) t
     = which_or_env os t).
Proof.
  split.
  - intros os' Hw He Hroot Ht. unfold which_or_env, py_or.
    rewrite Hw, Hroot, Ht. destruct (truthy (which os t)); [done|].
    destruct (negb _); [done|].
    generalize (possible (default [] (environ os !! lit "ANDROID_SDK_ROOT")) t).
    intros paths. induction paths as [|pp paths IH]; [done|].
    cbn [first_existing]. by rewrite He, IH.
  - intros Ht. unfold which_or_env, py_or. cbn [which environ path_exists].
    rewrite Ht, lookup_delete_eq. cbn [truthy].
    rewrite lookup_delete_ne by done.
    destruct (truthy (which os t)); [done|]. destruct (negb _); [done|].
    generalize (possible (default [] (environ os !! lit "ANDROID_HOME")) t).
    intros paths. induction paths as [|pp paths IH]; [done|].
    cbn [first_existing path_exists]. by rewrite IH.
Qed.

Lemma sdk_root_precedence_witness :
  which_or_env
    (mkOs (λ _, None)
       {[ lit "ANDROID_SDK_ROOT" := lit "/sdk"; lit "ANDROID_HOME" := lit "/old" ]}
       (λ _, true)) (lit "adb")
  = which_or_env
      (mkOs (λ _, None) {[ lit "ANDROID_SDK_ROOT" := lit "/sdk" ]} (λ _, true))
      (lit "adb").
Proof.
  apply (proj1 (sdk_root_precedence
                  (mkOs (λ _, None) {[ lit "ANDROID_SDK_ROOT" := lit "/sdk" ]}
                     (λ _, true)) (lit "adb"))); try done;
    vm_compute; reflexivity.
Defined.

Lemma endswith_app (suffix x y : str) :
  (length suffix ≤ length y)%nat → endswith suffix (x ++ y) = endswith suffix y.
Proof.
  unfold endswith. rewrite reverse_app, <- (length_reverse y), <- (length_reverse suffix).
  generalize (reverse suffix) (reverse y) (reverse x). clear.
  intros a. induction a as [|c a IH]; intros b x Hlen; [done|].
  destruct b as [|d b]; [cbn in Hlen; lia|]. cbn [app startswith].
  rewrite IH; [done|]. cbn in Hlen. lia.
Qed.

Lemma path_join_step (path b : str) (parts : list str) :
  path ≠ [] → startswith (lit "/") b = false →
  path_join path (b :: parts)
  = path_join (with_slash path ++ b) parts.
Proof.
  intros Hp Hb. cbn [path_join]. rewrite Hb. unfold with_slash.
  assert (truthy_str path = true) as -> by (by destruct path). cbn [negb orb].
  destruct (endswith (lit "/") path); [done|]. by rewrite <- app_assoc.
Qed.

Lemma with_slash_after (x seg : str) :
  seg ≠ [] → endswith (lit "/") seg = false →
  with_slash (x ++ seg) = x ++ seg ++ lit "/".
Proof.
  intros Hne Hseg. unfold with_slash. rewrite endswith_app, Hseg.
  - by rewrite <- app_assoc.
  - destruct seg; [done|]. change (length (lit "/")) with 1%nat. cbn. lia.
Qed.

Lemma path_join_segments (path : str) (segs : list str) (t : str) :
  path ≠ [] →
  Forall (λ seg, seg ≠ [] ∧ startswith (lit "/") seg = false
                 ∧ endswith (lit "/") seg = false) segs →
  startswith (lit "/") t = false →
  path_join path (segs ++ [t])
  = with_slash path ++ concat ((λ seg, seg ++ lit "/") <$> segs) ++ t.
Proof.
  intros Hp Hsegs Ht. revert path Hp.
  induction Hsegs as [|seg segs (Hne & Hstart & Hend) _ IH]; intros path Hp.
  - cbn [app fmap list_fmap concat]. by rewrite path_join_step.
  - cbn [app fmap list_fmap concat].
    rewrite path_join_step, IH, with_slash_after by
      (done || (unfold with_slash; destruct (endswith _ path); by destruct path)).
    by rewrite <- !app_assoc.
Qed.

(** X19: the four places probed under a non-empty SDK root, for a tool
    name that does not start with a slash: [tools/bin],
    [cmdline-tools/latest/bin], [cmdline-tools/bin] and [platform-tools]
    under the root, in this order, the root being followed by exactly
    one slash whether or not it is written with one. *)
Theorem probed_paths root t :
  root ≠ [] → startswith (lit "/") t = false →
  possible root t
  = [with_slash root ++ lit "tools/bin/" ++ t;
     with_slash root ++ lit "cmdline-tools/latest/bin/" ++ t;
     with_slash root ++ lit "cmdline-tools/bin/" ++ t;
     with_slash root ++ lit "platform-tools/" ++ t].
Proof.
  intros Hroot Ht. unfold possible.
  change [lit "tools"; lit "bin"; t] with ([lit "tools"; lit "bin"] ++ [t]).
  change [lit "cmdline-tools"; lit "latest"; lit "bin"; t]
    with ([lit "cmdline-tools"; lit "latest"; lit "bin"] ++ [t]).
  change [lit "cmdline-tools"; lit "bin"; t]
    with ([lit "cmdline-tools"; lit "bin"] ++ [t]).
  change [lit "platform-tools"; t] with ([lit "platform-tools"] ++ [t]).
  rewrite !path_join_segments by (done || (repeat constructor; by vm_compute)).
  reflexivity.
Qed.

Lemma probed_paths_witness :
  possible (lit "/opt/sdk/") (lit "adb")
  = [lit "/opt/sdk/tools/bin/adb";
     lit "/opt/sdk/cmdline-tools/latest/bin/adb";
     lit "/opt/sdk/cmdline-tools/bin/adb";
     lit "/opt/sdk/platform-tools/adb"].
Proof.
  rewrite (probed_paths (lit "/opt/sdk/") (lit "adb")) by done. reflexivity.
Defined.
End LocatorExtras.

(** ** [ensure_tools] and the menu *)

Section MenuExtras.
Implicit Types (w : world) (os : os_env) (found_tools found : gmap str str).

Lemma ensure_tools_loop_spec os (tools missing : list str) found :
  fst (ensure_tools_loop os tools missing found)
  = missing ++ List.filter (λ t, negb (truthy (which_or_env os t))) tools
  ∧ ∀ (t p : str),
      snd (ensure_tools_loop os tools missing found) !! t = Some p
      ↔ (t ∈ tools ∧ which_or_env os t = Some p)
        ∨ ((t ∉ tools ∨ truthy (which_or_env os t) = false)
           ∧ found !! t = Some p).
Proof.
  revert missing found. induction tools as [|t0 tools IH]; intros missing found.
  { cbn. split; [by rewrite app_nil_r|]. intros t p. split.
    - intros H. right. split; [left; apply not_elem_of_nil | done].
    - intros [[H _]|[_ H]]; [by apply elem_of_nil in H | done]. }
  cbn [ensure_tools_loop List.filter].
  destruct (truthy (which_or_env os t0)) eqn:Ht0; cbn [negb].
  - destruct (IH missing (<[t0 := default [] (which_or_env os t0)]> found))
      as [Hm Hf]. split; [done|]. intros t p. rewrite Hf.
    destruct (which_or_env os t0) as [p0|] eqn:E0; [|done].
    cbn [default from_option Datatypes.id].
    pose proof (which_or_env_sound os t0 p0 E0) as [Hp0 _].
    destruct (decide (t = t0)) as [->|Hne].
    + rewrite lookup_insert_eq. rewrite E0.
      split.
      * intros [[_ H]|[_ H]]; left; (split; [by left | done]).
      * intros [[_ H]|[[H|H] _]].
        -- destruct (decide (t0 ∈ tools)); [left; by split|].
           right. by split; [left|].
        -- destruct H. by left.
        -- rewrite Ht0 in H. done.
    + rewrite lookup_insert_ne by done. split.
      * intros [[H1 H2]|[[H1|H1] H2]].
        -- left. split; [by right | done].
        -- right. split; [|done]. left. intros H.
           apply elem_of_cons in H as [?|?]; done.
        -- right. split; [by right | done].
      * intros [[H1 H2]|[[H1|H1] H2]].
        -- left. apply elem_of_cons in H1 as [?|?]; done.
        -- right. split; [|done]. left. intros H. apply H1. by right.
        -- right. split; [by right | done].
  - destruct (IH (missing ++ [t0]) found) as [Hm Hf]. split.
    + rewrite Hm. by rewrite <- app_assoc.
    + intros t p. rewrite Hf. split.
      * intros [[H1 H2]|[[H1|H1] H2]].
        -- left. split; [by right | done].
        -- destruct (decide (t = t0)) as [->|Hne].
           ++ right. split; [by right | done].
           ++ right. split; [|done]. left. intros H.
              apply elem_of_cons in H as [?|?]; done.
        -- right. split; [by right | done].
      * intros [[H1 H2]|[[H1|H1] H2]].
        -- apply elem_of_cons in H1 as [->|H1]; [|left; by split].
           rewrite H2 in Ht0. cbn [truthy] in Ht0.
           pose proof (which_or_env_sound os t0 p H2) as [Hp _].
           by destruct p.
        -- right. split; [|done]. left. intros H. apply H1. by right.
        -- right. split; [by right | done].
Qed.

(** X20: what [ensure_tools] hands to the operations, on every machine.
    The dictionary holds exactly the tools of [TOOLS] that
    [which_or_env] locates, each with its path; no path in it is empty,
    so a tool is seen as present by an operation exactly when it is in
    the dictionary.  The warning is printed exactly when a tool is
    missing and names the missing tools in the order of [TOOLS].  Nothing
    is raised, no child is started and no input is read. *)
Theorem ensure_tools_reports os w :
  ∃ found,
    ensure_tools os w
    = (Return found,
       mkWorld (children w) (stdin w)
         (trace w ++ missing_warning (missing_tools os)))
    ∧ (∀ t p : str,
         found !! t = Some p ↔ t ∈ TOOLS ∧ which_or_env os t = Some p)
    ∧ (∀ t : str, truthy (found !! t) = true ↔ is_Some (found !! t)).
Proof.
  destruct (ensure_tools_loop_spec os TOOLS [] ∅) as [Hm Hf].
  unfold ensure_tools.
  destruct (ensure_tools_loop os TOOLS [] ∅) as [missing found].
  cbn [fst snd app] in Hm, Hf. fold (missing_tools os) in Hm.
  exists found. rewrite <- Hm.
  assert (∀ t p : str,
            found !! t = Some p ↔ t ∈ TOOLS ∧ which_or_env os t = Some p) as Hfound.
  { intros t p. rewrite Hf. rewrite lookup_empty. split.
    - intros [?|[_ ?]]; done.
    - intros ?. by left. }
  split; [|split; [done|]].
  - destruct missing as [|m missing].
    + cbn [missing_warning]. rewrite app_nil_r. cbn. by destruct w.
    + run_monad. cbn [missing_warning]. by rewrite <- app_assoc.
  - intros t. split.
    + intros H. by destruct (found !! t); [eexists|].
    + intros [p Hp]. rewrite Hp. cbn [truthy].
      apply Hfound in Hp as [_ Hp].
      apply which_or_env_sound in Hp as [Hp _]. by destruct p.
Qed.

Lemma bind_run {A B} (m : M A) (f : A → M B) w :
  (m ≫= f) w
  = match m w with
    | (Return a, w') => f a w'
    | (Raise e, w') => (Raise e, w')
    end.
Proof. reflexivity. Qed.

Lemma menu_operation_contained os found_tools (choice : str) :
  contained only_eof 2
    (if bool_decide (choice = lit "1") then create_samsung_device found_tools
     else if bool_decide (choice = lit "2") then create_pixel_device found_tools
     else if bool_decide (choice = lit "3") then create_system_image_dump found_tools
     else if bool_decide (choice = lit "4") then setup_shizuku os found_tools
     else print (lit "Unknown choice.")).
Proof.
  repeat destruct (bool_decide _).
  - apply contained_quiet. unfold create_samsung_device.
    apply (contained_bind no_exn 0 0); [apply list_avd_devices_contained|].
    intros devices. apply (contained_bind no_exn 0 0);
      [apply create_avd_contained | intros _; apply contained_print].
  - apply contained_quiet. unfold create_pixel_device.
    apply (contained_bind no_exn 0 0); [apply list_avd_devices_contained|].
    intros devices. apply (contained_bind no_exn 0 0);
      [apply create_avd_contained | intros _; apply contained_print].
  - apply create_system_image_dump_contained.
  - eapply contained_mono; [| |apply setup_shizuku_contained]; [done | lia].
  - apply contained_quiet, contained_print.
Qed.

Lemma main_menu_loop_ends fuel os found_tools w :
  (length (stdin w) < fuel)%nat →
  ∃ w',
    (main_menu_loop fuel os found_tools w = (Return (Some ()), w')
     ∧ last (trace w') = Some (Printed (lit "Exiting.")))
    ∨ (main_menu_loop fuel os found_tools w = (Raise EOFError, w')
       ∧ stdin w' = []).
Proof.
  revert w. induction fuel as [|fuel IH]; intros w Hlen; [lia|].
  cbn [main_menu_loop]. rewrite bind_run, print_all_runs, bind_run.
  unfold input. cbn [stdin children trace].
  destruct (stdin w) as [|line rest] eqn:Hin.
  { eexists. right. by split. }
  destruct (bool_decide (lower (strip line) ∈ quit_words)).
  { run_monad. eexists. left. split; [reflexivity|]. cbn [trace].
    by rewrite last_snoc. }
  rewrite bind_run.
  pose proof (menu_operation_contained os found_tools (lower (strip line))) as Hop.
  match goal with |- context [match ?op ?w2 with _ => _ end] =>
    destruct (Hop w2) as (k & Hk & Hc & Hs & Hr); destruct (op w2) as [[[]|e] w3]
  end; cbn [fst snd stdin] in *.
  - apply IH. rewrite Hs, length_drop. cbn [length] in Hlen. lia.
  - destruct Hr as [He Heof]. destruct e; try done.
    eexists. right. split; [reflexivity | by apply Heof].
Qed.

Lemma ensure_tools_spawned os w :
  spawned (trace (snd (ensure_tools os w))) = spawned (trace w).
Proof.
  unfold ensure_tools.
  destruct (ensure_tools_loop os TOOLS [] ∅) as [missing found].
  destruct missing; [done|]. run_monad. cbn [snd trace].
  rewrite !spawned_app. cbn. by rewrite !app_nil_r.
Qed.

(** X21: the menu does not go on for ever on a finite input, as long as
    every child that is started comes to an end.  Every turn of the loop
    reads a line, so with more fuel than lines waiting on the console
    [main_menu] does not use up its fuel: it ends either
    on a quit command, [Exiting.] being the last thing written, or on an
    exception, which nothing in it catches; and when that exception is
    [EOFError] the input is used up.  On an empty input it ends on
    [EOFError] after the first showing of the menu, having started no
    child. *)
Theorem main_menu_ends fuel os w :
  (length (stdin w) < fuel)%nat →
  (∃ w',
     (main_menu fuel os w = (Return (Some ()), w')
      ∧ last (trace w') = Some (Printed (lit "Exiting.")))
     ∨ (∃ e, main_menu fuel os w = (Raise e, w')
             ∧ (e = EOFError → stdin w' = [])))
  ∧ (stdin w = [] →
     fst (main_menu fuel os w) = Raise EOFError
     ∧ spawned (trace (snd (main_menu fuel os w))) = spawned (trace w)
     ∧ last (trace (snd (main_menu fuel os w)))
       = Some (Prompt (lit "Choose an option: "))).
Proof.
  intros Hlen. unfold main_menu. rewrite bind_run.
  destruct (ensure_tools_contained os w) as (k & Hk & _ & Hs & Hr).
  pose proof (ensure_tools_spawned os w) as Hquiet.
  destruct (ensure_tools os w) as [[found|e] w1]; cbn [fst snd] in *;
    [|by destruct Hr].
  rewrite bind_run. run_monad. split.
  - match goal with |- context [main_menu_loop fuel os found ?w2] =>
      destruct (main_menu_loop_ends fuel os found w2) as [w' [H|[H Hin]]]
    end.
    + cbn [stdin]. rewrite Hs, length_drop. lia.
    + exists w'. by left.
    + exists w'. right. exists EOFError. by split.
  - intros Hin. destruct fuel as [|fuel]; [lia|]. cbn [main_menu_loop].
    rewrite bind_run, print_all_runs, bind_run. unfold input.
    cbn [stdin children trace]. rewrite Hs, Hin, drop_nil.
    cbn [fst snd trace]. split; [done|]. split.
    + rewrite !spawned_app, Hquiet.
      assert (∀ ls : list str, spawned (Printed <$> ls) = []) as ->
        by (intros ls; induction ls; [done | by cbn]).
      cbn. by rewrite !app_nil_r.
    + by rewrite last_snoc.
Qed.

Lemma main_menu_ends_witness :
  ∃ w',
    main_menu 3 (mkOs (λ _, None) ∅ (λ _, false)) (failing_world [lit "9"; lit "Q"])
    = (Return (Some ()), w')
    ∧ last (trace w') = Some (Printed (lit "Exiting.")).
Proof.
  destruct (proj1 (main_menu_ends 3 (mkOs (λ _, None) ∅ (λ _, false))
                     (failing_world [lit "9"; lit "Q"]) ltac:(cbn; lia)))
    as [w' [H|(e & H & _)]].
  - exists w'. exact H.
  - exfalso. vm_compute in H. discriminate H.
Defined.

(** X22: one turn of the menu.  An answer that, stripped and put in
    lower case, is [q], [quit] or [exit] ends the loop at once; an answer
    that is none of these and none of [1] to [4] is reported with
    [Unknown choice.] and the menu is shown again.  Either way the turn
    reads that one line only and starts no child. *)
Theorem menu_turn fuel os found_tools w (line : str) rest :
  stdin w = line :: rest →
  let shown := trace w ++ (Printed <$> menu_text)
               ++ [Prompt (lit "Choose an option: ")] in
  (lower (strip line) ∈ quit_words →
   main_menu_loop (S fuel) os found_tools w
   = (Return (Some ()),
      mkWorld (children w) rest (shown ++ [Printed (lit "Exiting.")])))
  ∧ (lower (strip line) ∉ quit_words ++ [lit "1"; lit "2"; lit "3"; lit "4"] →
     main_menu_loop (S fuel) os found_tools w
     = main_menu_loop fuel os found_tools
         (mkWorld (children w) rest (shown ++ [Printed (lit "Unknown choice.")]))).
Proof.
  intros Hin shown. cbn [main_menu_loop].
  rewrite bind_run, print_all_runs, bind_run. unfold input.
  cbn [stdin children trace]. rewrite Hin.
  assert ((trace w ++ (Printed <$> menu_text))
          ++ [Prompt (lit "Choose an option: ")] = shown) as ->
    by (unfold shown; by rewrite <- app_assoc).
  split.
  - intros Hq. rewrite bool_decide_eq_true_2 by done. reflexivity.
  - intros Hno. rewrite elem_of_app in Hno.
    rewrite bool_decide_eq_false_2 by tauto.
    rewrite !bool_decide_eq_false_2
      by (intros E; apply Hno; right; rewrite E; set_solver).
    reflexivity.
Qed.

Lemma menu_turn_witness :
  main_menu_loop 1 (mkOs (λ _, None) ∅ (λ _, false)) ∅
    (failing_world [lit " QUIT "])
  = (Return (Some ()),
     mkWorld (children (failing_world [])) []
       ((Printed <$> menu_text)
        ++ [Prompt (lit "Choose an option: ")] ++ [Printed (lit "Exiting.")])).
Proof.
  refine (proj1 (menu_turn 0 (mkOs (λ _, None) ∅ (λ _, false)) ∅
                   (failing_world [lit " QUIT "]) (lit " QUIT ") [] eq_refl) _).
  vm_compute. repeat constructor.
Defined.
End MenuExtras.

(** ** The catalog reader as a whole *)

Section ListingExtras.
Implicit Types (w : world) (found_tools : gmap str str).

(** X23: [list_avd_devices] hides every failure.  It never raises and
    reads no input.  Without a located [avdmanager] it starts no child
    and returns the empty catalog; with one it starts the single child
    [avdmanager list device], and a non-zero exit of that child gives the
    empty catalog as well, the same answer as a listing that holds no
    device. *)
Theorem list_avd_devices_hides_failures avdmanager_path w :
  ∃ devices w',
    list_avd_devices avdmanager_path w = (Return devices, w')
    ∧ stdin w' = stdin w
    ∧ (truthy avdmanager_path = false → devices = [] ∧ trace w' = trace w)
    ∧ (∀ path : str,
         avdmanager_path = Some path → truthy_str path = true →
         trace w' = trace w ++ [Spawn [path; lit "list"; lit "device"]]
         ∧ (exit_ok (children w [path; lit "list"; lit "device"]) = false →
            devices = [])
         ∧ (exit_ok (children w [path; lit "list"; lit "device"]) = true →
            devices
            = parse_catalog
                (stdout (children w [path; lit "list"; lit "device"])))).
Proof.
  destruct (truthy avdmanager_path) eqn:Ht.
  - destruct avdmanager_path as [path|]; [|done]. cbn [truthy] in Ht.
    rewrite list_avd_devices_runs by done. eexists _, _.
    split; [reflexivity|]. cbn [stdin trace]. split; [done|]. split; [done|].
    intros path' [= <-] _. split; [done|].
    destruct (exit_ok _); split; done.
  - unfold list_avd_devices. rewrite Ht. eexists _, _.
    split; [reflexivity|]. split; [done|]. split; [done|].
    intros path -> Hp. cbn [truthy] in Ht. congruence.
Qed.

Lemma list_avd_devices_hides_failures_witness :
  ∃ devices w',
    list_avd_devices (Some (lit "avdmanager")) (failing_world [])
    = (Return devices, w')
    ∧ devices = [].
Proof.
  destruct (list_avd_devices_hides_failures (Some (lit "avdmanager"))
              (failing_world [])) as (devices & w' & Hrun & _ & _ & Hpath).
  exists devices, w'. split; [exact Hrun|].
  destruct (Hpath (lit "avdmanager") eq_refl eq_refl) as (_ & Hfail & _).
  apply Hfail. reflexivity.
Defined.

Lemma create_device_runs found_tools w (path avd_name : str)
    (select : list DeviceRecord → option str) (last_line : str) :
  found_tools !! lit "avdmanager" = Some path → truthy_str path = true →
  let listing := children w [path; lit "list"; lit "device"] in
  let devices := if exit_ok listing then parse_catalog (stdout listing) else [] in
  let pkg := system_image_pkg DEFAULT_API_LEVEL DEFAULT_TAG DEFAULT_ABI in
  let sdkmanager_path := found_tools !! lit "sdkmanager" in
  (devices ← list_avd_devices (found_tools !! lit "avdmanager");
   create_avd (found_tools !! lit "avdmanager")
     (found_tools !! lit "sdkmanager") avd_name (select devices)
     DEFAULT_API_LEVEL;;
   print last_line) w
  = (Return (),
     mkWorld (children w) (stdin w)
       (trace w
        ++ [Spawn [path; lit "list"; lit "device"]]
        ++ install_events sdkmanager_path DEFAULT_API_LEVEL
             (exit_ok (children w [default [] sdkmanager_path; pkg]))
        ++ creation_events (Some path) avd_name (select devices)
             DEFAULT_API_LEVEL
             (exit_ok (children w
                (create_avd_cmd path avd_name pkg (select devices))))
        ++ [Printed last_line])).
Proof.
  intros Hpath Hp listing devices pkg sdkmanager_path.
  rewrite Hpath, bind_run.
  rewrite list_avd_devices_runs by done. fold listing devices.
  rewrite bind_run, create_avd_trace. run_monad.
  change (default [] (Some path)) with path.
  by rewrite <- !app_assoc.
Qed.

(** X24: how the two device operations compose their parts.  With
    [avdmanager] located, and the listing, the installation and the
    creation each running to an exit status where they are started, each
    operation returns after having done, in this order and nothing else:
    the listing; the installation step of the provisioner; its creation
    step, with the profile that the operation's selector picks from the
    catalog parsed from the listing, or from the empty catalog when the
    listing exited with a non-zero status; and the printing of its
    closing line.  The closing line of the Pixel operation,
    [Pixel-like AVD created.], is printed whatever the exit status of
    the creation. *)
Theorem device_operations_compose found_tools w (path : str)
    (listed installed created : bool) :
  found_tools !! lit "avdmanager" = Some path → truthy_str path = true →
  let sdkmanager_path := found_tools !! lit "sdkmanager" in
  let pkg := system_image_pkg DEFAULT_API_LEVEL DEFAULT_TAG DEFAULT_ABI in
  let list_cmd := [path; lit "list"; lit "device"] in
  let devices :=
    if listed then parse_catalog (stdout (children w list_cmd)) else [] in
  let composed (result : outcome () * world) avd_name profile last_line :=
    fst result = Return ()
    ∧ trace (snd result)
      = trace w
        ++ [Spawn list_cmd]
        ++ install_events sdkmanager_path DEFAULT_API_LEVEL installed
        ++ creation_events (Some path) avd_name profile DEFAULT_API_LEVEL
             created
        ++ [Printed last_line]
    ∧ spawned (trace (snd result))
      = spawned (trace w)
        ++ [list_cmd]
        ++ install_cmds sdkmanager_path DEFAULT_API_LEVEL
        ++ [create_avd_cmd path avd_name pkg profile] in
  exits_with w list_cmd listed →
  exits_with w [default [] sdkmanager_path; pkg] installed →
  (exits_with w
     (create_avd_cmd path (lit "Samsung_Device_AVD") pkg
        (samsung_profile devices)) created →
   composed (create_samsung_device found_tools w)
     (lit "Samsung_Device_AVD") (samsung_profile devices)
     (lit "You can start the emulator with option to run headless or with window."))
  ∧ (exits_with w
       (create_avd_cmd path (lit "Pixel_Device_AVD") pkg
          (pixel_profile devices)) created →
     composed (create_pixel_device found_tools w)
       (lit "Pixel_Device_AVD") (pixel_profile devices)
       (lit "Pixel-like AVD created.")).
Proof.
  intros Hpath Hp sdkmanager_path pkg list_cmd devices composed Hl Hi.
  unfold exits_with in *. subst composed devices listed installed.
  split; intros Hc; subst created.
  - unfold create_samsung_device.
    rewrite (create_device_runs found_tools w path _ samsung_profile _ Hpath Hp).
    cbn [fst snd trace]. split; [done|]. split; [done|].
    rewrite !spawned_app, spawned_install_events, spawned_creation_events.
    unfold creation_cmds. cbn [truthy]. rewrite Hp. cbn.
    by rewrite ?app_nil_r.
  - unfold create_pixel_device.
    rewrite (create_device_runs found_tools w path _ pixel_profile _ Hpath Hp).
    cbn [fst snd trace]. split; [done|]. split; [done|].
    rewrite !spawned_app, spawned_install_events, spawned_creation_events.
    unfold creation_cmds. cbn [truthy]. rewrite Hp. cbn.
    by rewrite ?app_nil_r.
Qed.

Lemma device_operations_compose_witness :
  let result :=
    create_pixel_device {[ lit "avdmanager" := lit "avdmanager" ]}
      (listing_world pixel_5_text []) in
  fst result = Return ()
  ∧ spawned (trace (snd result))
    = [[lit "avdmanager"; lit "list"; lit "device"];
       [lit "avdmanager"; lit "create"; lit "avd"; lit "--name";
        lit "Pixel_Device_AVD"; lit "--package";
        lit "system-images;android-31;google_apis;x86_64"; lit "--force";
        lit "--device"; lit "23"]]
  ∧ printed_lines (trace (snd result))
    = [lit "sdkmanager not found; cannot install system images automatically.";
       lit "Creating AVD 'Pixel_Device_AVD' (device profile: 23)";
       lit "+ avdmanager create avd --name Pixel_Device_AVD --package system-images;android-31;google_apis;x86_64 --force --device 23";
       lit "AVD 'Pixel_Device_AVD' created.";
       lit "Pixel-like AVD created."].
Proof.
  cbn zeta.
  assert (({[ lit "avdmanager" := lit "avdmanager" ]} : gmap str str)
            !! lit "avdmanager" = Some (lit "avdmanager")) as Hpath
    by (vm_compute; reflexivity).
  destruct (proj2 (device_operations_compose
                     {[ lit "avdmanager" := lit "avdmanager" ]}
                     (listing_world pixel_5_text [])
                     (lit "avdmanager") true true true Hpath eq_refl
                     ltac:(vm_compute; reflexivity)
                     ltac:(vm_compute; reflexivity))
              ltac:(vm_compute; reflexivity))
    as (Hret & Htr & Hsp).
  split; [exact Hret|]. split; [rewrite Hsp | rewrite Htr];
    vm_compute; reflexivity.
Defined.
End ListingExtras.
